(** * Receipt scanner: a shallow embedding of [main.go]

    The program is a two-endpoint HTTP service.  [scanReceipt] parses the
    textual fields of a receipt, tallies reward points and stores them in
    the process-wide map [receiptPoints] under a fresh identifier;
    [getPoints] looks an identifier up.

    Go strings are byte sequences, so they are embedded as [string]
    (a list of 8-bit [ascii] values).  Go's [int] is taken to be the 64-bit
    two's complement integer of the usual targets and is embedded as [Z]
    with the wrap-around written out ([wrap64]).  [float64] is embedded as
    [spec_float] at precision 53 and maximal exponent 1024, which is the
    IEEE 754 binary64 format with a single NaN; products are rounded to
    nearest, ties to even.

    The functions of the Go standard library called by [main.go]
    ([unicode/utf8] decoding, [unicode.IsLetter], [unicode.IsDigit],
    [strings.TrimSpace], [strconv.ParseFloat], [time.Parse] for the two
    layouts used, [math.Floor], [math.Ceil], [math.Mod]) are embedded in
    modules named after their packages, function by function, after the
    library as of Go 1.13 and later (the releases in which [ParseFloat]
    reads hexadecimal mantissas and underscores between digits).

    Each handler is a function from the world before the request to the
    response written and the world after it. *)

From Stdlib Require Import ZArith Lia Bool List Ascii String.
From Stdlib Require Import Floats.SpecFloat.
From stdpp Require Import base option gmap strings pretty.

Local Open Scope Z_scope.

(** ** What the language leaves to the platform *)

(** Three things used by the program are fixed by the Go toolchain and the
    target rather than by [main.go]: the Unicode category tables beyond
    Latin-1 consulted by [unicode.IsLetter] and [unicode.IsDigit], and the
    value of a float-to-int conversion whose operand does not fit (the
    language specification calls that value implementation-dependent). *)
Class Platform := {
  letterTable : Z -> bool;
  digitTable : Z -> bool;
  intOutOfRange : spec_float -> Z
}.

(** ** Bytes and slices of Go strings *)

Definition byteOf (c : ascii) : Z := Z.of_N (N_of_ascii c).

Definition ofByte (b : Z) : ascii := ascii_of_N (Z.to_N b).

Fixpoint ofBytes (bs : list Z) : string :=
  match bs with
  | [] => EmptyString
  | b :: bs' => String (ofByte b) (ofBytes bs')
  end.

(** [len(s)] *)
Definition len (s : string) : Z := Z.of_nat (String.length s).

(** [s[i]] for an index in range; the callers below establish the range
    before indexing, as the Go code does. *)
Definition at_ (s : string) (i : Z) : Z :=
  match String.get (Z.to_nat i) s with
  | Some c => byteOf c
  | None => 0
  end.

(** [s[i:j]] *)
Definition slice (s : string) (i j : Z) : string :=
  String.substring (Z.to_nat i) (Z.to_nat (j - i)) s.

(** ** Package [unicode/utf8] *)

Module utf8.

Definition RuneError : Z := 65533.
Definition RuneSelf : Z := 128.
Definition UTFMax : Z := 4.

(** The table [first] together with [acceptRanges]: for a leading byte,
    the length of the sequence and the range allowed for its second
    byte; [None] for the entries marked invalid.  ASCII bytes are handled
    before the table is consulted. *)
Definition first (b : Z) : option (nat * (Z * Z)) :=
  if b <? 194 then None
  else if b <? 224 then Some (2%nat, (128, 191))
  else if b =? 224 then Some (3%nat, (160, 191))
  else if b <? 237 then Some (3%nat, (128, 191))
  else if b =? 237 then Some (3%nat, (128, 159))
  else if b <? 240 then Some (3%nat, (128, 191))
  else if b =? 240 then Some (4%nat, (144, 191))
  else if b <? 244 then Some (4%nat, (128, 191))
  else if b =? 244 then Some (4%nat, (128, 143))
  else None.

Definition cont (b : Z) : bool := (128 <=? b) && (b <=? 191).

(** [DecodeRuneInString]: the rune at the front of [s] and its width in
    bytes; [(RuneError, 0)] on the empty string and [(RuneError, 1)] on
    an encoding that is not valid UTF-8. *)
Definition DecodeRuneInString (s : string) : Z * nat :=
  match s with
  | EmptyString => (RuneError, 0%nat)
  | String c0 rest =>
    let s0 := byteOf c0 in
    if s0 <? RuneSelf then (s0, 1%nat)
    else
      match first s0 with
      | None => (RuneError, 1%nat)
      | Some (sz, (lo, hi)) =>
        if (String.length s <? sz)%nat then (RuneError, 1%nat)
        else
          let s1 := at_ s 1 in
          if (s1 <? lo) || (hi <? s1) then (RuneError, 1%nat)
          else if (sz <=? 2)%nat
          then (Z.lor (Z.shiftl (Z.land s0 31) 6) (Z.land s1 63), 2%nat)
          else
            let s2 := at_ s 2 in
            if negb (cont s2) then (RuneError, 1%nat)
            else if (sz <=? 3)%nat
            then (Z.lor (Z.lor (Z.shiftl (Z.land s0 15) 12)
                               (Z.shiftl (Z.land s1 63) 6))
                        (Z.land s2 63), 3%nat)
            else
              let s3 := at_ s 3 in
              if negb (cont s3) then (RuneError, 1%nat)
              else (Z.lor (Z.lor (Z.lor (Z.shiftl (Z.land s0 7) 18)
                                        (Z.shiftl (Z.land s1 63) 12))
                                 (Z.shiftl (Z.land s2 63) 6))
                          (Z.land s3 63), 4%nat)
      end
  end.

(** [RuneStart]: the byte is not a continuation byte. *)
Definition RuneStart (b : Z) : bool := negb (Z.land b 192 =? 128).

(** The backwards scan of [DecodeLastRuneInString]:
    [for start--; start >= lim; start-- { if RuneStart(s[start]) { break } }],
    entered with [start] already decremented. *)
Fixpoint scanBack (fuel : nat) (s : string) (lim start : Z) : Z :=
  match fuel with
  | O => start
  | S fuel' =>
    if start <? lim then start
    else if RuneStart (at_ s start) then start
    else scanBack fuel' s lim (start - 1)
  end.

(** [DecodeLastRuneInString]: the rune at the end of [s] and its width. *)
Definition DecodeLastRuneInString (s : string) : Z * nat :=
  let end_ := len s in
  if end_ =? 0 then (RuneError, 0%nat)
  else
    let start := end_ - 1 in
    let r := at_ s start in
    if r <? RuneSelf then (r, 1%nat)
    else
      let lim := Z.max 0 (end_ - UTFMax) in
      let start := scanBack 4 s lim (start - 1) in
      let start := Z.max 0 start in
      let '(r, size) := DecodeRuneInString (slice s start end_) in
      if start + Z.of_nat size =? end_ then (r, size) else (RuneError, 1%nat).

(** The runes produced by [for _, char := range s]: the string is decoded
    front to back, an invalid byte yielding [RuneError] and advancing by
    one.  [skip] counts the bytes of the current rune still to be passed. *)
Fixpoint rangeFrom (skip : nat) (s : string) : list Z :=
  match s with
  | EmptyString => []
  | String _ s' =>
    match skip with
    | S k => rangeFrom k s'
    | O => let '(r, size) := DecodeRuneInString s in
           r :: rangeFrom (size - 1) s'
    end
  end.

Definition range (s : string) : list Z := rangeFrom 0 s.

(** [RuneCountInString] *)
Definition RuneCountInString (s : string) : Z := Z.of_nat (length (range s)).

End utf8.

(** ** Package [unicode] *)

Module unicode.

Definition MaxLatin1 : Z := 255.

(** [IsSpace]: the Latin-1 cases are listed in the function itself, the
    others are the [White_Space] range table. *)
Definition IsSpace (r : Z) : bool :=
  if (0 <=? r) && (r <=? MaxLatin1)
  then (r =? 9) || (r =? 10) || (r =? 11) || (r =? 12) || (r =? 13)
       || (r =? 32) || (r =? 133) || (r =? 160)
  else (r =? 5760) || ((8192 <=? r) && (r <=? 8202))
       || (r =? 8232) || (r =? 8233) || (r =? 8239) || (r =? 8287)
       || (r =? 12288).

(** The letters of Latin-1, the [pLmask] bits of the [properties] array. *)
Definition latin1Letter (r : Z) : bool :=
  ((65 <=? r) && (r <=? 90)) || ((97 <=? r) && (r <=? 122))
  || (r =? 170) || (r =? 181) || (r =? 186)
  || ((192 <=? r) && (r <=? 214)) || ((216 <=? r) && (r <=? 246))
  || ((248 <=? r) && (r <=? 255)).

Section Tables.
Context {P : Platform}.

Definition IsLetter (r : Z) : bool :=
  if (0 <=? r) && (r <=? MaxLatin1) then latin1Letter r else letterTable r.

Definition IsDigit (r : Z) : bool :=
  if r <=? MaxLatin1 then (48 <=? r) && (r <=? 57) else digitTable r.

End Tables.

End unicode.

(** ** Package [strings] *)

Module strings.

(** The array [asciiSpace]. *)
Definition asciiSpace (c : Z) : bool :=
  (c =? 9) || (c =? 10) || (c =? 11) || (c =? 12) || (c =? 13) || (c =? 32).

(** [TrimLeftFunc]: [indexFunc(s, f, false)] walks the runes of [s] front
    to back and stops at the first one that [f] rejects; the result is the
    suffix from there, or the empty string when there is none. *)
Fixpoint trimLeftFrom (f : Z -> bool) (skip : nat) (s : string) : string :=
  match s with
  | EmptyString => EmptyString
  | String _ s' =>
    match skip with
    | S k => trimLeftFrom f k s'
    | O => let '(r, size) := utf8.DecodeRuneInString s in
           if f r then trimLeftFrom f (size - 1) s' else s
    end
  end.

Definition TrimLeftFunc (s : string) (f : Z -> bool) : string :=
  trimLeftFrom f 0 s.

(** [lastIndexFunc(s, f, false)]: walks the runes of [s] back to front,
    [i] being the end of the part still to be examined; every round
    lowers [i] by at least one, so [len(s)] rounds are enough. *)
Fixpoint lastIndexLoop (fuel : nat) (s : string) (f : Z -> bool) (i : Z) : Z :=
  match fuel with
  | O => -1
  | S fuel' =>
    if i <=? 0 then -1
    else
      let '(r, size) := utf8.DecodeLastRuneInString (slice s 0 i) in
      let i := i - Z.of_nat size in
      if negb (f r) then i else lastIndexLoop fuel' s f i
  end.

Definition lastIndexFunc (s : string) (f : Z -> bool) : Z :=
  lastIndexLoop (S (String.length s)) s f (len s).

Definition TrimRightFunc (s : string) (f : Z -> bool) : string :=
  let i := lastIndexFunc s f in
  let i :=
    if (0 <=? i) && (utf8.RuneSelf <=? at_ s i)
    then i + Z.of_nat (snd (utf8.DecodeRuneInString (slice s i (len s))))
    else i + 1 in
  slice s 0 i.

Definition TrimFunc (s : string) (f : Z -> bool) : string :=
  TrimRightFunc (TrimLeftFunc s f) f.

(** The second loop of [TrimSpace], on [s = s[start:]]: [stop] moves down
    from the end over ASCII spaces and hands over to [TrimRightFunc] at
    the first byte that is not ASCII. *)
Fixpoint trimStop (s : string) (stop : nat) : string :=
  match stop with
  | O => EmptyString
  | S k =>
    let c := at_ s (Z.of_nat k) in
    if utf8.RuneSelf <=? c
    then TrimRightFunc (slice s 0 (Z.of_nat stop)) unicode.IsSpace
    else if asciiSpace c then trimStop s k
    else slice s 0 (Z.of_nat stop)
  end.

(** [TrimSpace]: the first loop moves [start] up over ASCII spaces and
    hands over to [TrimFunc] at the first byte that is not ASCII. *)
Fixpoint TrimSpace (s : string) : string :=
  match s with
  | EmptyString => EmptyString
  | String c s' =>
    if utf8.RuneSelf <=? byteOf c then TrimFunc s unicode.IsSpace
    else if asciiSpace (byteOf c) then TrimSpace s'
    else trimStop s (String.length s)
  end.

End strings.

(** ** [float64], [int] and package [math] *)

(** Signed 64-bit wrap-around, the arithmetic of Go's [int]. *)
Definition wrap64 (z : Z) : Z := (z + 2 ^ 63) mod 2 ^ 64 - 2 ^ 63.

Definition add64 (a b : Z) : Z := wrap64 (a + b).

Definition mul64 (a b : Z) : Z := wrap64 (a * b).

Module math.

Definition prec : Z := 53.
Definition emax : Z := 1024.

Definition float64 : Type := spec_float.

Definition NaN : float64 := S754_nan.

(** [x * y] and [x == y] on [float64]. *)
Definition mul (x y : float64) : float64 := SFmul prec emax x y.

Definition eqb (x y : float64) : bool := SFeqb x y.

(** The float with the value of the integer [n] scaled by [2^e], rounded
    to nearest even; [neg] is the sign given to a zero. *)
Definition ofScaled (n e : Z) (neg : bool) : float64 :=
  binary_normalize prec emax n e neg.

(** [Floor]: the greatest integer value not above [x]; zeros, infinities
    and NaN are returned as they are. *)
Definition Floor (x : float64) : float64 :=
  match x with
  | S754_finite s m e =>
    if 0 <=? e then x
    else ofScaled (Z.shiftr (cond_Zopp s (Zpos m)) (- e)) 0 s
  | _ => x
  end.

(** [Ceil(x)] is computed as [-Floor(-x)]. *)
Definition Ceil (x : float64) : float64 := SFopp (Floor (SFopp x)).

(** [Mod]: the remainder of [x/y] with the sign of [x], which is exact.
    [Mod(±Inf, y)], [Mod(NaN, y)], [Mod(x, 0)] and [Mod(x, NaN)] are NaN
    and [Mod(x, ±Inf)] is [x]. *)
Definition Mod (x y : float64) : float64 :=
  match x, y with
  | S754_nan, _ | _, S754_nan => NaN
  | S754_infinity _, _ => NaN
  | _, S754_zero _ => NaN
  | _, S754_infinity _ => x
  | S754_zero _, S754_finite _ _ _ => x
  | S754_finite sx mx ex, S754_finite _ my ey =>
    let e := Z.min ex ey in
    let r := Z.rem (Z.shiftl (Zpos mx) (ex - e)) (Z.shiftl (Zpos my) (ey - e)) in
    ofScaled (cond_Zopp sx r) e sx
  end.

(** The integer part of a finite float, the fraction discarded. *)
Definition truncate (x : float64) : option Z :=
  match x with
  | S754_zero _ => Some 0
  | S754_finite s m e =>
    Some (cond_Zopp s (if 0 <=? e then Z.shiftl (Zpos m) e
                       else Z.shiftr (Zpos m) (- e)))
  | _ => None
  end.

Section Conversion.
Context {P : Platform}.

(** The conversion [int(x)] of a [float64]: truncation towards zero when
    the result fits [int]; otherwise whatever [int] the platform
    produces. *)
Definition toInt (x : float64) : Z :=
  match truncate x with
  | Some v =>
    if (- 2 ^ 63 <=? v) && (v <? 2 ^ 63) then v
    else wrap64 (intOutOfRange x)
  | None => wrap64 (intOutOfRange x)
  end.

End Conversion.

(** The constants [0.25] and [0.2] of the program as [float64] values:
    a quarter is exact, a fifth is the nearest binary64 number. *)
Definition quarter : float64 := S754_finite false 4503599627370496 (-54).
Definition fifth : float64 := S754_finite false 7205759403792794 (-55).

End math.

(** ** Package [strconv]: [ParseFloat(s, 64)] *)

Module strconv.

Import math.

(** [lower(c)] is [c | ('x' - 'X')]. *)
Definition lower (c : Z) : Z := Z.lor c 32.

Definition isDecimal (c : Z) : bool := (48 <=? c) && (c <=? 57).

Definition isHexLetter (c : Z) : bool := (97 <=? lower c) && (lower c <=? 102).

(** [commonPrefixLenIgnoreCase(s, prefix)], [prefix] being in lower case. *)
Fixpoint commonPrefixLenIgnoreCase (s prefix : string) : Z :=
  match s, prefix with
  | String c s', String p prefix' =>
    let c := byteOf c in
    let c := if (65 <=? c) && (c <=? 90) then c + 32 else c in
    if c =? byteOf p then 1 + commonPrefixLenIgnoreCase s' prefix' else 0
  | _, _ => 0
  end.

(** [special]: the value and the number of bytes consumed when a prefix of
    [s] is a possibly signed [inf] or [infinity] or an unsigned [nan], in
    any letter case. *)
Definition special (s : string) : option (float64 * Z) :=
  match s with
  | EmptyString => None
  | String c0 s' =>
    let b := byteOf c0 in
    let infinite (neg : bool) (nsign : Z) (t : string) :=
      let n := commonPrefixLenIgnoreCase t "infinity" in
      let n := if (3 <? n) && (n <? 8) then 3 else n in
      if (n =? 3) || (n =? 8) then Some (S754_infinity neg, nsign + n)
      else None in
    if (b =? 43) || (b =? 45) then infinite (b =? 45) 1 s'
    else if (b =? 105) || (b =? 73) then infinite false 0 s
    else if (b =? 110) || (b =? 78) then
      if commonPrefixLenIgnoreCase s "nan" =? 3 then Some (NaN, 3) else None
    else None
  end.

(** The state of the digit loop of [readFloat].  [mant] holds every
    significant digit read (the library keeps the leading 19 and a flag
    for a non-zero rest, which rounds the same), [nd] their number and
    [dp] the position of the point. *)
Record digits := {
  mant : Z;
  nd : Z;
  dp : Z;
  sawdot : bool;
  sawdigits : bool;
  underscores : bool
}.

Definition noDigits : digits :=
  {| mant := 0; nd := 0; dp := 0; sawdot := false; sawdigits := false;
     underscores := false |}.

(** The loop labelled [loop]: returns the state and the unread rest. *)
Fixpoint readDigits (base : Z) (d : digits) (s : string) : digits * string :=
  match s with
  | EmptyString => (d, s)
  | String c0 s' =>
    let c := byteOf c0 in
    if c =? 95 then
      readDigits base
        {| mant := mant d; nd := nd d; dp := dp d; sawdot := sawdot d;
           sawdigits := sawdigits d; underscores := true |} s'
    else if c =? 46 then
      if sawdot d then (d, s)
      else readDigits base
        {| mant := mant d; nd := nd d; dp := nd d; sawdot := true;
           sawdigits := sawdigits d; underscores := underscores d |} s'
    else if isDecimal c then
      if (c =? 48) && (nd d =? 0) then
        readDigits base
          {| mant := mant d; nd := nd d; dp := dp d - 1; sawdot := sawdot d;
             sawdigits := true; underscores := underscores d |} s'
      else
        readDigits base
          {| mant := mant d * base + (c - 48); nd := nd d + 1; dp := dp d;
             sawdot := sawdot d; sawdigits := true;
             underscores := underscores d |} s'
    else if (base =? 16) && isHexLetter c then
      readDigits base
        {| mant := mant d * 16 + (lower c - 97 + 10); nd := nd d + 1;
           dp := dp d; sawdot := sawdot d; sawdigits := true;
           underscores := underscores d |} s'
    else (d, s)
  end.

(** The digits of the exponent: [e] stops growing once it has reached
    10000; returns [e], whether an underscore was met, and the rest. *)
Fixpoint readExponent (e : Z) (us : bool) (s : string) : Z * bool * string :=
  match s with
  | EmptyString => (e, us, s)
  | String c0 s' =>
    let c := byteOf c0 in
    if c =? 95 then readExponent e true s'
    else if isDecimal c then
      readExponent (if e <? 10000 then e * 10 + (c - 48) else e) us s'
    else (e, us, s)
  end.

(** The loop of [underscoreOK] over the number proper; [saw] is the last
    character class seen, coded by its character. *)
Fixpoint underscoreLoop (hex : bool) (saw : Z) (s : string) : bool :=
  match s with
  | EmptyString => negb (saw =? 95)
  | String c0 s' =>
    let c := byteOf c0 in
    if isDecimal c || (hex && isHexLetter c) then underscoreLoop hex 48 s'
    else if c =? 95 then
      if negb (saw =? 48) then false else underscoreLoop hex 95 s'
    else if saw =? 95 then false
    else underscoreLoop hex 33 s'
  end.

Definition underscoreOK (s : string) : bool :=
  let s := match s with
           | String c0 s' =>
             if (byteOf c0 =? 45) || (byteOf c0 =? 43) then s' else s
           | EmptyString => s
           end in
  match s with
  | String c0 (String c1 s') =>
    let l := lower (byteOf c1) in
    if (byteOf c0 =? 48) && ((l =? 98) || (l =? 111) || (l =? 120))
    then underscoreLoop (l =? 120) 48 s'
    else underscoreLoop false 94 s
  | _ => underscoreLoop false 94 s
  end.

(** What [readFloat] hands on: sign, base, the digits as an integer and
    the exponent of the base they are scaled by, together with the
    position of the point and the unread rest of the input. *)
Record reading := {
  neg : bool;
  hex : bool;
  mantissa : Z;
  exp : Z;
  point : Z;
  rest : string
}.

(** [readFloat]; [None] is the result [ok = false]. *)
Definition readFloat (s : string) : option reading :=
  match s with
  | EmptyString => None
  | String c0 s' =>
    let neg := byteOf c0 =? 45 in
    let t := if (byteOf c0 =? 43) || (byteOf c0 =? 45) then s' else s in
    let hex := (2 <? len t) && (at_ t 0 =? 48) && (lower (at_ t 1) =? 120) in
    let t := if hex then slice t 2 (len t) else t in
    let base := if hex then 16 else 10 in
    let expChar := if hex then 112 else 101 in
    let '(d, t) := readDigits base noDigits t in
    if negb (sawdigits d) then None
    else
      let dp := if sawdot d then dp d else nd d in
      let dp := if hex then dp * 4 else dp in
      let ndMant := if hex then nd d * 4 else nd d in
      let finish (dp : Z) (us : bool) (t : string) :=
        if us && negb (underscoreOK (slice s 0 (len s - len t))) then None
        else Some {| neg := neg; hex := hex; mantissa := mant d;
                     exp := if mant d =? 0 then 0 else dp - ndMant;
                     point := dp; rest := t |} in
      match t with
      | String e0 t1 =>
        if lower (byteOf e0) =? expChar then
          match t1 with
          | EmptyString => None
          | String g0 t2 =>
            let esign := if byteOf g0 =? 45 then -1 else 1 in
            let t3 := if (byteOf g0 =? 43) || (byteOf g0 =? 45)
                      then t2 else t1 in
            match t3 with
            | EmptyString => None
            | String h0 _ =>
              if negb (isDecimal (byteOf h0)) then None
              else
                let '(e, us, t4) := readExponent 0 (underscores d) t3 in
                finish (dp + e * esign) us t4
            end
          end
        else if hex then None
        else finish dp (underscores d) t
      | EmptyString =>
        if hex then None else finish dp (underscores d) t
      end
  end.

(** The nearest [float64] to [m * 10^e] for [m > 0]. *)
Definition decimalToFloat (neg : bool) (m e : Z) : float64 :=
  if 0 <=? e then ofScaled (cond_Zopp neg (m * 10 ^ e)) 0 neg
  else
    SFdiv prec emax (S754_finite neg (Z.to_pos m) 0)
                    (S754_finite false (Z.to_pos (10 ^ (- e))) 0).

(** The conversion of what was read.  A decimal whose point lies beyond
    310 digits is out of range and one whose point lies below -330 is
    zero, as in [decimal.floatBits]; everything else is rounded to the
    nearest [float64], ties to even.  [None] is the range error, which
    the library reports whenever the rounded magnitude is infinite. *)
Definition convert (r : reading) : option float64 :=
  if mantissa r =? 0 then Some (S754_zero (neg r))
  else
    let f :=
      if hex r then ofScaled (cond_Zopp (neg r) (mantissa r)) (exp r) (neg r)
      else if 310 <? point r then S754_infinity (neg r)
      else if point r <? -330 then S754_zero (neg r)
      else decimalToFloat (neg r) (mantissa r) (exp r) in
    match f with
    | S754_infinity _ => None
    | _ => Some f
    end.

(** [ParseFloat(s, 64)]: [Some f] when the error result is [nil].  The
    whole of [s] has to be consumed. *)
Definition ParseFloat (s : string) : option float64 :=
  match special s with
  | Some (val, n) => if n =? len s then Some val else None
  | None =>
    match readFloat s with
    | None => None
    | Some r =>
      match rest r with
      | EmptyString => convert r
      | String _ _ => None
      end
    end
  end.

End strconv.

(** ** Package [time]: [Parse] for the layouts ["2006-01-02"] and ["15:04"] *)

Module time.

(** The fields of a parsed [Time] that the program reads back.  The
    values handed to [Date] by [Parse] are in range, so that [Day],
    [Hour] and [Minute] return them unchanged. *)
Record Time := {
  Year : Z;
  Month : Z;
  Day : Z;
  Hour : Z;
  Minute : Z
}.

Definition isDigit (s : string) (i : Z) : bool :=
  if len s <=? i then false
  else (48 <=? at_ s i) && (at_ s i <=? 57).

(** [getnum]: one or two leading digits, two being required when
    [fixed]; returns the number and the rest of the input. *)
Definition getnum (s : string) (fixed : bool) : option (Z * string) :=
  if negb (isDigit s 0) then None
  else if negb (isDigit s 1) then
    if fixed then None else Some (at_ s 0 - 48, slice s 1 (len s))
  else Some ((at_ s 0 - 48) * 10 + (at_ s 1 - 48), slice s 2 (len s)).

(** [skip(value, prefix)] for the one-byte literal prefixes of the two
    layouts, ["-"] and [":"]. *)
Definition skip (value : string) (prefix : Z) : option string :=
  match value with
  | EmptyString => None
  | String c value' => if byteOf c =? prefix then Some value' else None
  end.

(** [atoi] on the four bytes taken for [stdLongYear], the first of which
    is known to be a digit: all four have to be digits. *)
Definition atoi4 (p : string) : option Z :=
  if isDigit p 0 && isDigit p 1 && isDigit p 2 && isDigit p 3
  then Some ((at_ p 0 - 48) * 1000 + (at_ p 1 - 48) * 100
             + (at_ p 2 - 48) * 10 + (at_ p 3 - 48))
  else None.

Definition isLeap (year : Z) : bool :=
  (year mod 4 =? 0) && (negb (year mod 100 =? 0) || (year mod 400 =? 0)).

Definition daysIn (m year : Z) : Z :=
  if (m =? 2) && isLeap year then 29
  else if m =? 2 then 28
  else if (m =? 4) || (m =? 6) || (m =? 9) || (m =? 11) then 30
  else 31.

(** [Parse("2006-01-02", value)]: the chunks are [stdLongYear], ["-"],
    [stdZeroMonth], ["-"], [stdZeroDay]; nothing may follow; the day is
    validated against the month and year at the end. *)
Definition ParseDate (value : string) : option Time :=
  if (len value <? 4) || negb (isDigit value 0) then None
  else
    year ← atoi4 (slice value 0 4);
    value ← skip (slice value 4 (len value)) 45;
    '(month, value) ← getnum value true;
    if (month <=? 0) || (12 <? month) then None
    else
      value ← skip value 45;
      '(day, value) ← getnum value true;
      if negb (len value =? 0) then None
      else if (day <? 1) || (daysIn month year <? day) then None
      else Some {| Year := year; Month := month; Day := day;
                   Hour := 0; Minute := 0 |}.

(** [Parse("15:04", value)]: the chunks are [stdHour], [":"],
    [stdZeroMinute]; nothing may follow.  The date defaults to 1 January
    of year 0. *)
Definition ParseClock (value : string) : option Time :=
  '(hour, value) ← getnum value false;
  if (hour <? 0) || (24 <=? hour) then None
  else
    value ← skip value 58;
    '(min, value) ← getnum value true;
    if (min <? 0) || (60 <=? min) then None
    else if negb (len value =? 0) then None
    else Some {| Year := 0; Month := 1; Day := 1;
                 Hour := hour; Minute := min |}.

End time.

(** ** The program: [main.go] *)

Record Item := {
  Description : string;
  Price : string
}.

Record Receipt := {
  Retailer : string;
  Date : string;
  Time : string;
  Items : list Item;
  Total : string
}.

(** The state the handlers run in.  [receiptPoints] is the global map.
    [uuid.New] draws from a random source outside the program: [uuids] is
    the sequence of identifiers that source is going to deliver and
    [drawn] the number of them taken so far. *)
Record World := {
  receiptPoints : gmap string Z;
  uuids : nat -> string;
  drawn : nat
}.

(** What a handler writes with [context.IndentedJSON(status, gin.H{key: value})]. *)
Inductive JSON :=
  | JString (s : string)
  | JInt (n : Z).

Record Response := {
  status : Z;
  key : string;
  value : JSON
}.

Definition StatusOK : Z := 200.
Definition StatusCreated : Z := 201.
Definition StatusBadRequest : Z := 400.
Definition StatusNotFound : Z := 404.

Definition IndentedJSON (code : Z) (k : string) (v : JSON) : Response :=
  {| status := code; key := k; value := v |}.

Section Handlers.
Context {P : Platform}.

(** The loop over [receipt.Retailer] collecting the letters and digits. *)
Fixpoint alphanumericChars (runes : list Z) (acc : list Z) : list Z :=
  match runes with
  | [] => acc
  | char :: runes' =>
    if unicode.IsLetter char || unicode.IsDigit char
    then alphanumericChars runes' (acc ++ [char])
    else alphanumericChars runes' acc
  end.

(** The loop over [receipt.Items]: [inl] carries the message of the early
    return, [inr] the points after the last item. *)
Fixpoint itemLoop (items : list Item) (totalPoints : Z) : string + Z :=
  match items with
  | [] => inr totalPoints
  | item :: items' =>
    let trimmedDescLength := len (strings.TrimSpace (Description item)) in
    if Z.rem trimmedDescLength 3 =? 0 then
      match strconv.ParseFloat (Price item) with
      | None =>
        inl ("Failed to parse price to float for item: " +:+ Description item)
      | Some priceFloat =>
        itemLoop items'
          (add64 totalPoints
                 (math.toInt (math.Ceil (math.mul priceFloat math.fifth))))
      end
    else itemLoop items' totalPoints
  end.

(** Lines 48 to 130 of [scanReceipt], from the point where [BindJSON] has
    filled in [receipt]: the three parses and the tally.  Every early
    return of that stretch writes a 400 response with a message and leaves
    the handler; [inl] carries that message, [inr] the final value of
    [totalPoints]. *)
Definition tally (receipt : Receipt) : string + Z :=
  match strconv.ParseFloat (Total receipt) with
  | None => inl "Failed to parse receipt total to float."
  | Some receiptTotal =>
    match time.ParseDate (Date receipt) with
    | None => inl "Failed to parse receipt purchaseDate."
    | Some receiptDate =>
      match time.ParseClock (Time receipt) with
      | None => inl "Failed to parse receipt purchaseTime."
      | Some receiptTime =>
        let totalPoints := 0 in
        let retailerAlphanumericChars :=
          alphanumericChars (utf8.range (Retailer receipt)) [] in
        let totalPoints :=
          add64 totalPoints (Z.of_nat (length retailerAlphanumericChars)) in
        let totalPoints :=
          if math.eqb (math.Floor receiptTotal) receiptTotal
          then add64 totalPoints 50 else totalPoints in
        let totalPoints :=
          if math.eqb (math.Mod receiptTotal math.quarter) (S754_zero false)
          then add64 totalPoints 25 else totalPoints in
        let totalPoints :=
          add64 totalPoints
                (mul64 5 (Z.quot (Z.of_nat (length (Items receipt))) 2)) in
        match itemLoop (Items receipt) totalPoints with
        | inl message => inl message
        | inr totalPoints =>
          let totalPoints :=
            if negb (Z.rem (time.Day receiptDate) 2 =? 0)
            then add64 totalPoints 6 else totalPoints in
          let totalPoints :=
            if ((time.Hour receiptTime =? 14) && (0 <? time.Minute receiptTime))
               || ((14 <? time.Hour receiptTime) && (time.Hour receiptTime <? 16))
            then add64 totalPoints 10 else totalPoints in
          inr totalPoints
        end
      end
    end
  end.

(** [scanReceipt]: the tally, then lines 132 to 138, which draw the
    identifier, store the points under it and answer 201. *)
Definition scanReceipt (receipt : Receipt) (w : World) : Response * World :=
  match tally receipt with
  | inl message =>
    (IndentedJSON StatusBadRequest "message" (JString message), w)
  | inr totalPoints =>
    let uniqueID := uuids w (drawn w) in
    (IndentedJSON StatusCreated "id" (JString uniqueID),
     {| receiptPoints := <[uniqueID := totalPoints]> (receiptPoints w);
        uuids := uuids w;
        drawn := S (drawn w) |})
  end.

(** [getPoints], [inputId] being the path parameter [id]. *)
Definition getPoints (inputId : string) (w : World) : Response * World :=
  match receiptPoints w !! inputId with
  | Some points => (IndentedJSON StatusOK "points" (JInt points), w)
  | None =>
    (IndentedJSON StatusNotFound "message"
       (JString "Points not found for that id."), w)
  end.

End Handlers.

(** [main] creates the empty map before the router starts. *)
Definition main (source : nat -> string) : World :=
  {| receiptPoints := ∅; uuids := source; drawn := 0 |}.

(** ** The scoring rules as the specification words them

    Each rule is stated on the parsed values, independently of the order
    in which [tally] accumulates them; the theorems below relate the two. *)

Section Rules.
Context {P : Platform}.

Definition isAlphanumeric (r : Z) : bool :=
  unicode.IsLetter r || unicode.IsDigit r.

(** One point per letter or digit of the retailer name. *)
Definition retailerPoints (retailer : string) : Z :=
  Z.of_nat (length (List.filter isAlphanumeric (utf8.range retailer))).

(** 50 points when the total equals its floor. *)
Definition roundDollarBonus (total : math.float64) : Z :=
  if math.eqb (math.Floor total) total then 50 else 0.

(** 25 points when the total modulo 0.25 is zero. *)
Definition quarterBonus (total : math.float64) : Z :=
  if math.eqb (math.Mod total math.quarter) (S754_zero false) then 25 else 0.

(** 5 points for every two items. *)
Definition itemPairBonus (items : list Item) : Z :=
  5 * (Z.of_nat (length items) / 2).

(** The length test of the item loop: the trimmed description, counted in
    bytes as [len] does, is a multiple of 3. *)
Definition byteLengthQualifies (item : Item) : bool :=
  len (strings.TrimSpace (Description item)) mod 3 =? 0.

(** The same test on the number of characters (runes) of the trimmed
    description. *)
Definition charLengthQualifies (item : Item) : bool :=
  utf8.RuneCountInString (strings.TrimSpace (Description item)) mod 3 =? 0.

(** [int(ceil(price * 0.2))] for the item's parsed price. *)
Definition pricePoints (item : Item) : Z :=
  match strconv.ParseFloat (Price item) with
  | Some price => math.toInt (math.Ceil (math.mul price math.fifth))
  | None => 0
  end.

(** The description-length bonus: the price points of the items selected
    by [qualifies], summed. *)
Definition descriptionBonus (qualifies : Item -> bool) (items : list Item) : Z :=
  fold_right (fun item acc => (if qualifies item then pricePoints item else 0) + acc)
             0 items.

(** 6 points when the day of the month is odd. *)
Definition oddDayBonus (date : time.Time) : Z :=
  if Z.odd (time.Day date) then 6 else 0.

Definition minuteOfDay (clock : time.Time) : Z :=
  60 * time.Hour clock + time.Minute clock.

(** 10 points when the time lies strictly between 14:00 and 16:00. *)
Definition afternoonBonus (clock : time.Time) : Z :=
  if (14 * 60 <? minuteOfDay clock) && (minuteOfDay clock <? 16 * 60)
  then 10 else 0.

(** A qualifying item whose price does not parse. *)
Definition badPrice (item : Item) : bool :=
  byteLengthQualifies item
  && match strconv.ParseFloat (Price item) with Some _ => false | None => true end.

End Rules.

(** The error kinds of the specification and the message the handler
    writes for each. *)
Inductive ValidationError :=
  | InvalidTotal
  | InvalidDate
  | InvalidTime
  | InvalidItemPrice (description : string).

Definition messageOf (e : ValidationError) : string :=
  match e with
  | InvalidTotal => "Failed to parse receipt total to float."
  | InvalidDate => "Failed to parse receipt purchaseDate."
  | InvalidTime => "Failed to parse receipt purchaseTime."
  | InvalidItemPrice description =>
    "Failed to parse price to float for item: " +:+ description
  end.

(** Validation in the order of the specification: total, date, time, then
    the first item, in sequence order, that qualifies and whose price does
    not parse. *)
Definition validate (receipt : Receipt) : option ValidationError :=
  match strconv.ParseFloat (Total receipt) with
  | None => Some InvalidTotal
  | Some _ =>
    match time.ParseDate (Date receipt) with
    | None => Some InvalidDate
    | Some _ =>
      match time.ParseClock (Time receipt) with
      | None => Some InvalidTime
      | Some _ =>
        match List.find badPrice (Items receipt) with
        | Some item => Some (InvalidItemPrice (Description item))
        | None => None
        end
      end
    end
  end.

(** The description has ASCII bytes only. *)
Fixpoint isASCII (s : string) : bool :=
  match s with
  | EmptyString => true
  | String c s' => (byteOf c <? utf8.RuneSelf) && isASCII s'
  end.

(** ** Receipts and platforms used as examples *)

(** A platform to run examples on: the conversion of a float that does
    not fit yields the least [int], as on amd64; the tables beyond
    Latin-1 are left empty, the examples having ASCII retailer names. *)
Definition examplePlatform : Platform :=
  {| letterTable := fun _ => false;
     digitTable := fun _ => false;
     intOutOfRange := fun _ => - 2 ^ 63 |}.

Definition exampleWorld : World := main (fun n => "id-" +:+ pretty n).

(** The receipt of the end-to-end scenario. *)
Definition targetReceipt : Receipt :=
  {| Retailer := "Target";
     Date := "2022-01-01";
     Time := "13:01";
     Items :=
       [ {| Description := "Mountain Dew 12PK"; Price := "6.49" |};
         {| Description := "Emils Cheese Pizza"; Price := "12.25" |};
         {| Description := "Knorr Creamy Chicken"; Price := "1.26" |};
         {| Description := "Doritos Nacho Cheese"; Price := "3.35" |};
         {| Description := "   Klarbrunn 12-PK 12 FL OZ  "; Price := "12.00" |} ];
     Total := "35.35" |}.

(** The same purchase made at 14:01. *)
Definition afternoonReceipt : Receipt :=
  {| Retailer := Retailer targetReceipt;
     Date := Date targetReceipt;
     Time := "14:01";
     Items := Items targetReceipt;
     Total := Total targetReceipt |}.

(** The same purchase with a total of 100.00. *)
Definition roundTotalReceipt : Receipt :=
  {| Retailer := Retailer targetReceipt;
     Date := Date targetReceipt;
     Time := Time targetReceipt;
     Items := Items targetReceipt;
     Total := "100.00" |}.

(** A receipt on which only the rules on the total can score: no
    retailer name, no items, an even day, a morning purchase. *)
Definition negativeTotalReceipt : Receipt :=
  {| Retailer := "";
     Date := "2022-01-02";
     Time := "09:30";
     Items := [];
     Total := "-5.00" |}.

(** The same receipt with one qualifying item of negative price. *)
Definition negativePriceReceipt : Receipt :=
  {| Retailer := "";
     Date := "2022-01-02";
     Time := "09:30";
     Items := [ {| Description := "abc"; Price := "-1000.00" |} ];
     Total := "-5.00" |}.

(** A receipt on which only the description rule can score.  The
    description of its item is the two characters U+00E9 (e with acute
    accent) and [a], which UTF-8 encodes in the three bytes C3 A9 61. *)
Definition multibyteReceipt : Receipt :=
  {| Retailer := "";
     Date := "2022-01-02";
     Time := "09:30";
     Items := [ {| Description := ofBytes [195; 169; 97]; Price := "5.00" |} ];
     Total := "1.10" |}.

(** A receipt whose total does not parse. *)
Definition malformedReceipt : Receipt :=
  {| Retailer := Retailer targetReceipt;
     Date := Date targetReceipt;
     Time := Time targetReceipt;
     Items := Items targetReceipt;
     Total := "35,35" |}.

(** A receipt with a malformed price on an item that does not qualify
    (its description has two bytes) before a well-formed qualifying one. *)
Definition lazyReceipt : Receipt :=
  {| Retailer := "";
     Date := "2022-01-02";
     Time := "09:30";
     Items := [ {| Description := "ab"; Price := "free" |};
                {| Description := "abc"; Price := "5.00" |} ];
     Total := "1.10" |}.


(** A receipt on which nothing but the description rule can apply.  The
    description of its only item is the three characters U+00E9, [a]
    and [b], which UTF-8 encodes in the four bytes C3 A9 61 62; its
    price is not a number. *)
Definition unpricedThreeCharacterReceipt : Receipt :=
  {| Retailer := "";
     Date := "2022-01-02";
     Time := "09:30";
     Items := [ {| Description := ofBytes [195; 169; 97; 98]; Price := "free" |} ];
     Total := "1.10" |}.

(** The same receipt with the two characters U+00E9 and [a], three
    bytes, for a description. *)
Definition unpricedTwoCharacterReceipt : Receipt :=
  {| Retailer := "";
     Date := "2022-01-02";
     Time := "09:30";
     Items := [ {| Description := ofBytes [195; 169; 97]; Price := "free" |} ];
     Total := "1.10" |}.


(** ** The router of [main] and runs of requests *)

(** A request as the router hands it to a handler.  For
    [POST receipts/process], [body] is what [context.BindJSON] makes of
    the request body: the receipt, or [None] when it returns an error
    (lines 40 to 46 of [scanReceipt]).  For [GET /receipts/:id/points],
    [id] is the path parameter. *)
Inductive Request :=
  | PostProcess (body : option Receipt)
  | GetPoints (id : string).

Section Router.
Context {P : Platform}.

(** One request: the handler the router selects, run on the world. *)
Definition route (req : Request) (w : World) : Response * World :=
  match req with
  | PostProcess None =>
    (IndentedJSON StatusBadRequest "message"
       (JString "Failed to bind the request's JSON to type: Receipt."), w)
  | PostProcess (Some receipt) => scanReceipt receipt w
  | GetPoints id => getPoints id w
  end.

(** Requests served one after the other, each handler running to its end
    before the next starts: the responses in order and the last world. *)
Fixpoint serve (reqs : list Request) (w : World) : list Response * World :=
  match reqs with
  | [] => ([], w)
  | req :: reqs' =>
    let '(resp, w1) := route req w in
    let '(resps, w2) := serve reqs' w1 in
    (resp :: resps, w2)
  end.

End Router.

(** The responses of a run that report a created resource. *)
Definition created (resp : Response) : bool := status resp =? StatusCreated.

(** The identifier is one of those drawn so far. *)
Definition issued (w : World) (id : string) : Prop :=
  exists k, (k < drawn w)%nat /\ uuids w k = id.

(** Every key of the map is an identifier drawn so far. *)
Definition keysIssued (w : World) : Prop :=
  forall id, is_Some (receiptPoints w !! id) -> issued w id.

(** The source of identifiers never delivers the same one twice. *)
Definition neverRepeats (source : nat -> string) : Prop :=
  forall j k, source j = source k -> j = k.

(** The letters and digits of ASCII. *)
Definition asciiAlphanumeric (b : Z) : bool :=
  ((48 <=? b) && (b <=? 57)) || ((65 <=? b) && (b <=? 90))
  || ((97 <=? b) && (b <=? 122)).

(** The bytes of a string. *)
Fixpoint bytesOf (s : string) : list Z :=
  match s with
  | EmptyString => []
  | String c s' => byteOf c :: bytesOf s'
  end.


(** ** Dates and times by their bytes *)

Definition isDigitByte (b : Z) : Prop := 48 <= b <= 57.

(** The bytes of the date written YYYY-MM-DD and of the time written
    HH:MM, or H:MM when [short]. *)
Definition dateBytes (y m d : Z) : list Z :=
  [48 + y / 1000; 48 + y / 100 mod 10; 48 + y / 10 mod 10; 48 + y mod 10;
   45; 48 + m / 10; 48 + m mod 10; 45; 48 + d / 10; 48 + d mod 10].

Definition clockBytes (short : bool) (h m : Z) : list Z :=
  (if short then [48 + h] else [48 + h / 10; 48 + h mod 10])
  ++ [58; 48 + m / 10; 48 + m mod 10].

(** A day of the calendar, years 0 to 9999. *)
Definition validDate (y m d : Z) : Prop :=
  0 <= y <= 9999 /\ 1 <= m <= 12 /\ 1 <= d <= time.daysIn m y.

(** A time of the day; the hour has one digit only when it is below 10. *)
Definition validClock (short : bool) (h m : Z) : Prop :=
  0 <= h < 24 /\ 0 <= m < 60 /\ (short = true -> h <= 9).

(** ** Receipts derived from a receipt *)

(** The string has only the blanks of ASCII that [TrimSpace] removes. *)
Fixpoint allSpaces (s : string) : bool :=
  match s with
  | EmptyString => true
  | String c s' => strings.asciiSpace (byteOf c) && allSpaces s'
  end.

(** The item with [pre] put before its description and [post] after. *)
Definition padded (pre post : string) (item : Item) : Item :=
  {| Description := pre +:+ Description item +:+ post; Price := Price item |}.

(** The receipt with its items replaced. *)
Definition withItems (receipt : Receipt) (items : list Item) : Receipt :=
  {| Retailer := Retailer receipt; Date := Date receipt;
     Time := Time receipt; Items := items; Total := Total receipt |}.

(** ** Signs of floats *)

(** Not below zero: a zero of either sign, a positive number, the
    positive infinity, or NaN. *)
Definition notNegative (x : math.float64) : Prop :=
  match x with
  | S754_finite true _ _ | S754_infinity true => False
  | _ => True
  end.

(** Not above zero. *)
Definition notPositive (x : math.float64) : Prop :=
  match x with
  | S754_finite false _ _ | S754_infinity false => False
  | _ => True
  end.

(** ** Further example receipts *)

(** The receipt of the scenario dated the 30th of February. *)
Definition impossibleDateReceipt : Receipt :=
  {| Retailer := Retailer targetReceipt;
     Date := "2022-02-30";
     Time := Time targetReceipt;
     Items := Items targetReceipt;
     Total := Total targetReceipt |}.

(** The receipt of the scenario bought at 24:00. *)
Definition impossibleTimeReceipt : Receipt :=
  {| Retailer := Retailer targetReceipt;
     Date := Date targetReceipt;
     Time := "24:00";
     Items := Items targetReceipt;
     Total := Total targetReceipt |}.


(** * Properties of the embedding *)

(** ** The library embeddings on known values *)

(** The constants of the program are what [ParseFloat] makes of their
    decimal spelling, and both are canonical binary64 numbers. *)
Example constants_are_nearest :
  strconv.ParseFloat "0.25" = Some math.quarter
  /\ strconv.ParseFloat "0.2" = Some math.fifth
  /\ valid_binary math.prec math.emax math.quarter = true
  /\ valid_binary math.prec math.emax math.fifth = true.
Proof. repeat split; vm_compute; reflexivity. Qed.

(** Rounding to nearest even at the ends of the range: the largest
    finite number, the range error just above it, the least subnormal,
    and underflow to zero, which is no error. *)
Example ParseFloat_range :
  strconv.ParseFloat "1.7976931348623157e308"
    = Some (S754_finite false 9007199254740991 971)
  /\ strconv.ParseFloat "1.7976931348623159e308" = None
  /\ strconv.ParseFloat "1e400" = None
  /\ strconv.ParseFloat "4.9e-324" = Some (S754_finite false 1 (-1074))
  /\ strconv.ParseFloat "1e-400" = Some (S754_zero false)
  /\ strconv.ParseFloat "1e23" = Some (S754_finite false 5960464477539062 24).
Proof. repeat split; vm_compute; reflexivity. Qed.

(** The syntax accepted: signs, a bare point on either side, exponents,
    the special values, hexadecimal mantissas with a binary exponent and
    underscores between digits; nothing may surround the number. *)
Example ParseFloat_syntax :
  strconv.ParseFloat "-0" = Some (S754_zero true)
  /\ strconv.ParseFloat ".5" = strconv.ParseFloat "0.5"
  /\ strconv.ParseFloat "5." = strconv.ParseFloat "5"
  /\ strconv.ParseFloat "1E2" = strconv.ParseFloat "100"
  /\ strconv.ParseFloat "+Inf" = Some (S754_infinity false)
  /\ strconv.ParseFloat "-infinity" = Some (S754_infinity true)
  /\ strconv.ParseFloat "NaN" = Some S754_nan
  /\ strconv.ParseFloat "0x1p-2" = Some math.quarter
  /\ strconv.ParseFloat "1_000" = strconv.ParseFloat "1000"
  /\ map strconv.ParseFloat
         [""; "."; "+"; "e5"; "1e"; "1e+"; " 1"; "1 "; "1.2.3"; "35,35";
          "$5"; "-nan"; "infinit"; "0x1"; "1__0"; "_1"; "1_"]
     = map (fun _ => None)
           [""; "."; "+"; "e5"; "1e"; "1e+"; " 1"; "1 "; "1.2.3"; "35,35";
            "$5"; "-nan"; "infinit"; "0x1"; "1__0"; "_1"; "1_"].
Proof. repeat split; vm_compute; reflexivity. Qed.

(** [Floor], [Ceil] and [Mod] on halves and quarters, signs included. *)
Example Floor_Ceil_Mod_values :
  math.Floor (math.ofScaled 3 (-1) false) = math.ofScaled 1 0 false
  /\ math.Floor (math.ofScaled (-3) (-1) false) = math.ofScaled (-2) 0 false
  /\ math.Floor (math.ofScaled 1 (-1) false) = S754_zero false
  /\ math.Ceil (math.ofScaled 3 (-1) false) = math.ofScaled 2 0 false
  /\ math.Ceil (math.ofScaled (-3) (-1) false) = math.ofScaled (-1) 0 false
  /\ math.Ceil (math.ofScaled (-1) (-1) false) = S754_zero true
  /\ math.Mod (math.ofScaled 7 (-3) false) math.quarter
     = math.ofScaled 1 (-3) false
  /\ math.Mod (math.ofScaled (-7) (-3) false) math.quarter
     = math.ofScaled (-1) (-3) false
  /\ math.Mod (math.ofScaled (-1) 0 false) math.quarter = S754_zero true
  /\ math.Mod (S754_infinity false) math.quarter = math.NaN.
Proof. repeat split; vm_compute; reflexivity. Qed.

(** [time.Parse] on the two layouts: leap days, the one-digit hour that
    [stdHour] admits, and the inputs refused. *)
Example Parse_values :
  time.Day <$> time.ParseDate "2024-02-29" = Some 29
  /\ time.ParseDate "2023-02-29" = None
  /\ time.ParseDate "1900-02-29" = None
  /\ time.Day <$> time.ParseDate "2000-02-29" = Some 29
  /\ time.ParseDate "2022-1-01" = None
  /\ time.ParseDate "2022-13-01" = None
  /\ time.ParseDate "2022-01-00" = None
  /\ time.ParseDate "2022-01-01 " = None
  /\ minuteOfDay <$> time.ParseClock "9:05" = Some (9 * 60 + 5)
  /\ minuteOfDay <$> time.ParseClock "23:59" = Some (23 * 60 + 59)
  /\ time.ParseClock "24:00" = None
  /\ time.ParseClock "12:60" = None
  /\ time.ParseClock "12:5" = None
  /\ time.ParseClock "1:01pm" = None.
Proof. repeat split; vm_compute; reflexivity. Qed.

(** [TrimSpace] and the decoding of runes: ASCII blanks, the no-break
    space U+00A0 (bytes C2 A0) and the ideographic space U+3000 (bytes
    E3 80 80) are trimmed; an invalid byte decodes to [RuneError]. *)
Example TrimSpace_values :
  strings.TrimSpace "   Klarbrunn 12-PK 12 FL OZ  " = "Klarbrunn 12-PK 12 FL OZ"
  /\ strings.TrimSpace "   " = ""
  /\ strings.TrimSpace (ofBytes [194; 160; 97; 32; 98; 227; 128; 128; 9])
     = "a b"
  /\ utf8.range (ofBytes [195; 169; 97]) = [233; 97]
  /\ utf8.range (ofBytes [97; 255; 98]) = [97; utf8.RuneError; 98]
  /\ utf8.range (ofBytes [240; 159; 155; 146]) = [128722].
Proof. repeat split; vm_compute; reflexivity. Qed.

(** ** Wrap-around arithmetic *)

Lemma wrap64_range z : - 2 ^ 63 <= wrap64 z < 2 ^ 63.
Proof.
  unfold wrap64.
  pose proof (Z.mod_pos_bound (z + 2 ^ 63) (2 ^ 64) ltac:(lia)).
  lia.
Qed.

Lemma wrap64_small z : - 2 ^ 63 <= z < 2 ^ 63 -> wrap64 z = z.
Proof.
  intros Hz. unfold wrap64.
  rewrite Z.mod_small by lia. lia.
Qed.

Lemma wrap64_add_l a b : wrap64 (wrap64 a + b) = wrap64 (a + b).
Proof.
  unfold wrap64.
  replace ((a + 2 ^ 63) mod 2 ^ 64 - 2 ^ 63 + b + 2 ^ 63)
    with ((a + 2 ^ 63) mod 2 ^ 64 + b) by lia.
  rewrite Zplus_mod_idemp_l.
  replace (a + 2 ^ 63 + b) with (a + b + 2 ^ 63) by lia.
  reflexivity.
Qed.

Lemma wrap64_add_r a b : wrap64 (a + wrap64 b) = wrap64 (a + b).
Proof. rewrite Z.add_comm, wrap64_add_l. f_equal. lia. Qed.

Lemma wrap64_idem z : wrap64 (wrap64 z) = wrap64 z.
Proof. apply wrap64_small, wrap64_range. Qed.

Lemma add64_0_l b : add64 0 b = wrap64 b.
Proof. reflexivity. Qed.

Lemma add64_wrap a b : add64 (wrap64 a) b = wrap64 (a + b).
Proof. apply wrap64_add_l. Qed.

Lemma add64_wrap_if (c : bool) a b :
  (if c then add64 (wrap64 a) b else wrap64 a)
  = wrap64 (a + (if c then b else 0)).
Proof. destruct c; [apply add64_wrap | f_equal; lia]. Qed.

Lemma add64_wrap_mul a b c : add64 (wrap64 a) (mul64 b c) = wrap64 (a + b * c).
Proof. unfold add64, mul64. now rewrite wrap64_add_l, wrap64_add_r. Qed.

Lemma rem2_odd d : negb (Z.rem d 2 =? 0) = Z.odd d.
Proof.
  destruct d as [|p|p].
  - reflexivity.
  - rewrite Z.rem_mod_nonneg, Zmod_odd by lia.
    destruct (Z.odd (Z.pos p)); reflexivity.
  - change (Z.neg p) with (- Z.pos p).
    rewrite Z.rem_opp_l', Z.odd_opp, Z.rem_mod_nonneg, Zmod_odd by lia.
    destruct (Z.odd (Z.pos p)); reflexivity.
Qed.

(** ** The loops with a bound run to their end *)

Lemma scanBack_le fuel s lim : forall start,
  utf8.scanBack fuel s lim start <= start.
Proof.
  induction fuel as [|fuel IH]; intros start; simpl.
  - lia.
  - destruct (start <? lim); [lia|].
    destruct (utf8.RuneStart (at_ s start)); [lia|].
    specialize (IH (start - 1)). lia.
Qed.

Lemma DecodeLastRuneInString_size s :
  s <> EmptyString ->
  (1 <= snd (utf8.DecodeLastRuneInString s))%nat.
Proof.
  intros Hs. unfold utf8.DecodeLastRuneInString.
  assert (Hlen : 0 < len s) by (destruct s; [congruence | unfold len; simpl; lia]).
  destruct (len s =? 0) eqn:E; [apply Z.eqb_eq in E; lia|].
  destruct (at_ s (len s - 1) <? utf8.RuneSelf); [simpl; lia|].
  set (start := Z.max 0 (utf8.scanBack 4 s _ _)).
  assert (Hstart : start < len s).
  { subst start.
    pose proof (scanBack_le 4 s (Z.max 0 (len s - utf8.UTFMax)) (len s - 1 - 1)).
    lia. }
  destruct (utf8.DecodeRuneInString (slice s start (len s))) as [r size].
  destruct (start + Z.of_nat size =? len s) eqn:E2; simpl; [|lia].
  apply Z.eqb_eq in E2. lia.
Qed.

Lemma slice_nonempty s i : 0 < i <= len s -> slice s 0 i <> EmptyString.
Proof.
  unfold slice, len. rewrite Z.sub_0_r. intros [Hi Hl].
  destruct s as [|c s]; simpl in *; [lia|].
  destruct (Z.to_nat i) eqn:E; [lia|]. simpl. congruence.
Qed.

(** Once the fuel exceeds [i] the result of [lastIndexLoop] no longer
    depends on it: [lastIndexFunc] never stops for lack of fuel. *)
Lemma lastIndexLoop_fuel s f : forall fuel fuel' i,
  i <= len s -> i < Z.of_nat fuel -> i < Z.of_nat fuel' ->
  strings.lastIndexLoop fuel s f i = strings.lastIndexLoop fuel' s f i.
Proof.
  induction fuel as [|fuel IH]; intros fuel' i Hi H1 H2.
  - destruct fuel'; simpl; [reflexivity|].
    destruct (i <=? 0) eqn:E; [reflexivity|]. apply Z.leb_gt in E. lia.
  - destruct fuel' as [|fuel']; simpl.
    + destruct (i <=? 0) eqn:E; [reflexivity|]. apply Z.leb_gt in E. lia.
    + destruct (i <=? 0) eqn:E; [reflexivity|]. apply Z.leb_gt in E.
      pose proof (DecodeLastRuneInString_size (slice s 0 i)
                    (slice_nonempty s i ltac:(lia))) as Hsize.
      destruct (utf8.DecodeLastRuneInString (slice s 0 i)) as [r size].
      simpl in Hsize. destruct (negb (f r)); [reflexivity|].
      apply IH; lia.
Qed.

Lemma lastIndexFunc_fuel s f fuel :
  (String.length s < fuel)%nat ->
  strings.lastIndexFunc s f = strings.lastIndexLoop fuel s f (len s).
Proof.
  intros H. unfold strings.lastIndexFunc.
  apply lastIndexLoop_fuel; unfold len; lia.
Qed.

(** ** Descriptions of ASCII bytes *)

Lemma isASCII_substring s : forall n m,
  isASCII s = true -> isASCII (String.substring n m s) = true.
Proof.
  induction s as [|c s IH]; intros n m H.
  - destruct n, m; reflexivity.
  - simpl in H. apply andb_prop in H as [Hc Hs].
    destruct n as [|n].
    + destruct m as [|m]; simpl; [reflexivity|].
      rewrite Hc. simpl. apply IH, Hs.
    + simpl. apply IH, Hs.
Qed.

Lemma isASCII_at s i : isASCII s = true -> at_ s i < utf8.RuneSelf.
Proof.
  unfold at_. generalize (Z.to_nat i) as n.
  induction s as [|c s IH]; intros n H.
  - destruct n; simpl; unfold utf8.RuneSelf; lia.
  - simpl in H. apply andb_prop in H as [Hc Hs].
    destruct n as [|n]; simpl.
    + apply Z.ltb_lt, Hc.
    + apply IH, Hs.
Qed.

Lemma range_ascii s :
  isASCII s = true -> length (utf8.range s) = String.length s.
Proof.
  unfold utf8.range. induction s as [|c s IH]; intros H.
  - reflexivity.
  - simpl in H. apply andb_prop in H as [Hc Hs].
    cbn [utf8.rangeFrom utf8.DecodeRuneInString]. rewrite Hc.
    simpl. f_equal. apply IH, Hs.
Qed.

Lemma trimStop_ascii s : forall stop,
  isASCII s = true -> isASCII (strings.trimStop s stop) = true.
Proof.
  induction stop as [|k IH]; intros H; simpl.
  - reflexivity.
  - pose proof (isASCII_at s (Z.of_nat k) H) as Hk.
    destruct (utf8.RuneSelf <=? at_ s (Z.of_nat k)) eqn:E.
    + apply Z.leb_le in E. lia.
    + destruct (strings.asciiSpace (at_ s (Z.of_nat k))).
      * apply IH, H.
      * apply isASCII_substring, H.
Qed.

Lemma TrimSpace_ascii s :
  isASCII s = true -> isASCII (strings.TrimSpace s) = true.
Proof.
  induction s as [|c s IH]; intros H.
  - reflexivity.
  - pose proof H as H'. simpl in H'. apply andb_prop in H' as [Hc Hs].
    cbn [strings.TrimSpace].
    destruct (utf8.RuneSelf <=? byteOf c) eqn:E.
    + apply Z.leb_le in E. apply Z.ltb_lt in Hc. lia.
    + destruct (strings.asciiSpace (byteOf c)).
      * apply IH, Hs.
      * apply trimStop_ascii, H.
Qed.

Lemma ascii_description_chars_are_bytes s :
  isASCII s = true ->
  utf8.RuneCountInString (strings.TrimSpace s) = len (strings.TrimSpace s).
Proof.
  intros H. unfold utf8.RuneCountInString, len.
  rewrite range_ascii by apply TrimSpace_ascii, H. reflexivity.
Qed.

(** ** Messages *)

Lemma messageOf_inj e1 e2 : messageOf e1 = messageOf e2 -> e1 = e2.
Proof.
  destruct e1, e2; intros H; vm_compute in H; try discriminate;
    try reflexivity.
  inversion H. reflexivity.
Qed.

Section Properties.
Context {P : Platform}.

Lemma alphanumericChars_length runes acc :
  length (alphanumericChars runes acc)
  = (length acc + length (List.filter isAlphanumeric runes))%nat.
Proof.
  revert acc. induction runes as [|char runes IH]; intros acc; simpl.
  - lia.
  - unfold isAlphanumeric at 1.
    destruct (unicode.IsLetter char || unicode.IsDigit char).
    + rewrite IH, length_app. simpl. lia.
    + apply IH.
Qed.

Lemma byteLengthQualifies_rem item :
  (Z.rem (len (strings.TrimSpace (Description item))) 3 =? 0)
  = byteLengthQualifies item.
Proof.
  unfold byteLengthQualifies.
  rewrite Z.rem_mod_nonneg; [reflexivity | unfold len; lia | lia].
Qed.

Lemma itemLoop_inr items : forall s pts,
  itemLoop items (wrap64 s) = inr pts ->
  pts = wrap64 (s + descriptionBonus byteLengthQualifies items)
  /\ List.find badPrice items = None.
Proof.
  induction items as [|item items IH]; intros s pts H; simpl in *.
  - inversion H. split; [f_equal; lia | reflexivity].
  - unfold badPrice at 1. rewrite byteLengthQualifies_rem in H.
    destruct (byteLengthQualifies item) eqn:Eq; simpl.
    + unfold pricePoints.
      destruct (strconv.ParseFloat (Price item)) as [price|] eqn:Ep;
        [|discriminate].
      unfold add64 in H. rewrite wrap64_add_l in H.
      apply IH in H as [-> Hf]. split; [f_equal; lia | exact Hf].
    + apply IH in H as [-> Hf]. split; [f_equal; lia | exact Hf].
Qed.

Lemma itemLoop_find items : forall acc,
  match List.find badPrice items with
  | Some item =>
    itemLoop items acc
    = inl ("Failed to parse price to float for item: " +:+ Description item)
  | None => exists pts, itemLoop items acc = inr pts
  end.
Proof.
  induction items as [|item items IH]; intros acc; simpl.
  - eauto.
  - unfold badPrice at 1. rewrite byteLengthQualifies_rem.
    destruct (byteLengthQualifies item); simpl; [|apply IH].
    destruct (strconv.ParseFloat (Price item)); [apply IH | reflexivity].
Qed.

Lemma ParseClock_range value clock :
  time.ParseClock value = Some clock ->
  0 <= time.Hour clock < 24 /\ 0 <= time.Minute clock < 60.
Proof.
  unfold time.ParseClock. intros H.
  destruct (time.getnum value false) as [[hour v1]|]; simpl in H; [|discriminate].
  destruct ((hour <? 0) || (24 <=? hour)) eqn:Eh; [discriminate|].
  destruct (time.skip v1 58) as [v2|]; simpl in H; [|discriminate].
  destruct (time.getnum v2 true) as [[min v3]|]; simpl in H; [|discriminate].
  destruct ((min <? 0) || (60 <=? min)) eqn:Em; [discriminate|].
  destruct (negb (len v3 =? 0)); [discriminate|].
  inversion H; subst; simpl. lia.
Qed.

Lemma afternoon_condition clock :
  0 <= time.Minute clock < 60 ->
  (if ((time.Hour clock =? 14) && (0 <? time.Minute clock))
      || ((14 <? time.Hour clock) && (time.Hour clock <? 16))
   then 10 else 0) = afternoonBonus clock.
Proof.
  intros Hm. unfold afternoonBonus, minuteOfDay.
  destruct (((time.Hour clock =? 14) && (0 <? time.Minute clock))
            || ((14 <? time.Hour clock) && (time.Hour clock <? 16))) eqn:Ec,
           ((14 * 60 <? 60 * time.Hour clock + time.Minute clock)
            && (60 * time.Hour clock + time.Minute clock <? 16 * 60)) eqn:Es;
    try reflexivity; exfalso; lia.
Qed.

(** The tally of a receipt whose fields parse is the sum of the rules. *)
Lemma tally_inr receipt pts :
  tally receipt = inr pts ->
  exists total date clock,
    strconv.ParseFloat (Total receipt) = Some total
    /\ time.ParseDate (Date receipt) = Some date
    /\ time.ParseClock (Time receipt) = Some clock
    /\ List.find badPrice (Items receipt) = None
    /\ pts = wrap64 (retailerPoints (Retailer receipt)
                     + roundDollarBonus total + quarterBonus total
                     + itemPairBonus (Items receipt)
                     + descriptionBonus byteLengthQualifies (Items receipt)
                     + oddDayBonus date
                     + afternoonBonus clock).
Proof.
  unfold tally. intros H.
  destruct (strconv.ParseFloat (Total receipt)) as [total|]; [|discriminate].
  destruct (time.ParseDate (Date receipt)) as [date|]; [|discriminate].
  destruct (time.ParseClock (Time receipt)) as [clock|] eqn:Hc; [|discriminate].
  exists total, date, clock. repeat (split; [reflexivity|]).
  cbv zeta in H.
  rewrite alphanumericChars_length, rem2_odd in H. simpl (length []) in H.
  rewrite Nat.add_0_l, Z.quot_div_nonneg in H by lia.
  rewrite add64_0_l, !add64_wrap_if, add64_wrap_mul in H.
  destruct (itemLoop (Items receipt) _) as [message|pts'] eqn:E;
    [discriminate|].
  apply itemLoop_inr in E as [-> Hfind]. split; [exact Hfind|].
  rewrite !add64_wrap_if in H.
  rewrite afternoon_condition in H by apply (ParseClock_range _ _ Hc).
  inversion H. reflexivity.
Qed.

(** [scanReceipt] answers 201 exactly when the tally succeeds, and then
    stores the tally under the identifier drawn; otherwise it answers 400
    with the message of the tally and returns the world as it was. *)
Lemma scanReceipt_tally receipt (w : World) :
  match tally receipt with
  | inr totalPoints =>
    fst (scanReceipt receipt w)
    = IndentedJSON StatusCreated "id" (JString (uuids w (drawn w)))
    /\ receiptPoints (snd (scanReceipt receipt w))
       = <[uuids w (drawn w) := totalPoints]> (receiptPoints w)
    /\ drawn (snd (scanReceipt receipt w)) = S (drawn w)
  | inl message =>
    scanReceipt receipt w
    = (IndentedJSON StatusBadRequest "message" (JString message), w)
  end.
Proof.
  unfold scanReceipt. destruct (tally receipt); cbn; auto.
Qed.

(** ** The afternoon bonus *)

(** C2.  For a receipt whose fields all parse, the tally is the sum of the
    rules in which the afternoon rule contributes 10 exactly when the
    purchase time lies strictly after 14:00 and strictly before 16:00,
    that is, when the hour is 14 with a minute greater than zero or the
    hour is 15.  In particular 14:00 and 16:00 earn nothing and 14:01 and
    15:59 earn the bonus. *)
Theorem afternoon_bonus_strictly_between_14_and_16 receipt pts :
  tally receipt = inr pts ->
  exists total date clock,
    strconv.ParseFloat (Total receipt) = Some total
    /\ time.ParseDate (Date receipt) = Some date
    /\ time.ParseClock (Time receipt) = Some clock
    /\ pts = wrap64 (retailerPoints (Retailer receipt)
                     + roundDollarBonus total + quarterBonus total
                     + itemPairBonus (Items receipt)
                     + descriptionBonus byteLengthQualifies (Items receipt)
                     + oddDayBonus date
                     + (if (14 * 60 <? 60 * time.Hour clock + time.Minute clock)
                           && (60 * time.Hour clock + time.Minute clock <? 16 * 60)
                        then 10 else 0))
    /\ ((14 * 60 < 60 * time.Hour clock + time.Minute clock < 16 * 60)
        <-> ((time.Hour clock = 14 /\ 0 < time.Minute clock)
             \/ time.Hour clock = 15))
    /\ afternoonBonus <$> time.ParseClock "14:00" = Some 0
    /\ afternoonBonus <$> time.ParseClock "14:01" = Some 10
    /\ afternoonBonus <$> time.ParseClock "15:59" = Some 10
    /\ afternoonBonus <$> time.ParseClock "16:00" = Some 0.
Proof.
  intros H. apply tally_inr in H as (total & date & clock & Ht & Hd & Hc & _ & ->).
  destruct (ParseClock_range _ _ Hc) as [Hh Hm].
  exists total, date, clock. repeat (split; [assumption|]).
  split; [reflexivity|]. split; [lia|]. repeat split; reflexivity.
Qed.

(** ** The end-to-end scenario *)

Lemma targetReceipt_parses :
  strconv.ParseFloat (Total targetReceipt)
    = Some (S754_finite false 4975070213360845 (-47))
  /\ time.Day <$> time.ParseDate (Date targetReceipt) = Some 1
  /\ minuteOfDay <$> time.ParseClock (Time targetReceipt) = Some (13 * 60 + 1).
Proof. repeat split; vm_compute; reflexivity. Qed.

Lemma targetReceipt_rules :
  retailerPoints (Retailer targetReceipt) = 6
  /\ itemPairBonus (Items targetReceipt) = 10
  /\ map byteLengthQualifies (Items targetReceipt)
     = [false; true; false; false; true]
  /\ descriptionBonus byteLengthQualifies (Items targetReceipt) = 3 + 3.
Proof. repeat split; vm_compute; reflexivity. Qed.

Lemma tally_targetReceipt : tally targetReceipt = inr 28.
Proof. vm_compute. reflexivity. Qed.

(** C1.  The receipt of the end-to-end scenario (retailer Target, bought
    on 2022-01-01 at 13:01, five items, total 35.35) is scored
    successfully with exactly 28 points on every platform and in every
    world: [scanReceipt] answers 201 with the identifier drawn, stores 28
    under it, and [getPoints] then returns 28 for it. *)
Theorem target_receipt_scores_28 (w : World) :
  let uniqueID := uuids w (drawn w) in
  let w' := snd (scanReceipt targetReceipt w) in
  tally targetReceipt = inr 28
  /\ fst (scanReceipt targetReceipt w)
     = IndentedJSON StatusCreated "id" (JString uniqueID)
  /\ receiptPoints w' = <[uniqueID := 28]> (receiptPoints w)
  /\ fst (getPoints uniqueID w') = IndentedJSON StatusOK "points" (JInt 28).
Proof.
  intros uniqueID w'. subst w'. unfold scanReceipt.
  rewrite tally_targetReceipt. cbn [fst snd].
  repeat split. unfold getPoints. cbn [receiptPoints].
  fold uniqueID. rewrite lookup_insert_eq. reflexivity.
Qed.

(** ** The bonuses on the total *)

Lemma ParseFloat_100_00 :
  strconv.ParseFloat "100.00" = Some (S754_finite false 7036874417766400 (-46)).
Proof. vm_compute. reflexivity. Qed.

Lemma ParseFloat_10_10 :
  strconv.ParseFloat "10.10" = Some (S754_finite false 5685794529555251 (-49)).
Proof. vm_compute. reflexivity. Qed.

(** C6.  A total of 100.00 parses to a float that equals its floor and
    whose remainder modulo 0.25 is zero, so a receipt with that total
    that is scored receives 50 + 25 = 75 points on top of the other
    rules; a total of 10.10 passes neither test and receives nothing
    from the two rules. *)
Theorem total_100_00_earns_75_and_10_10_nothing receipt pts :
  tally receipt = inr pts ->
  exists date clock,
    time.ParseDate (Date receipt) = Some date
    /\ time.ParseClock (Time receipt) = Some clock
    /\ (Total receipt = "100.00" ->
        pts = wrap64 (retailerPoints (Retailer receipt)
                      + 50 + 25
                      + itemPairBonus (Items receipt)
                      + descriptionBonus byteLengthQualifies (Items receipt)
                      + oddDayBonus date + afternoonBonus clock))
    /\ (Total receipt = "10.10" ->
        pts = wrap64 (retailerPoints (Retailer receipt)
                      + 0 + 0
                      + itemPairBonus (Items receipt)
                      + descriptionBonus byteLengthQualifies (Items receipt)
                      + oddDayBonus date + afternoonBonus clock))
    /\ (exists total, strconv.ParseFloat "100.00" = Some total
          /\ math.eqb (math.Floor total) total = true
          /\ math.eqb (math.Mod total math.quarter) (S754_zero false) = true)
    /\ (exists total, strconv.ParseFloat "10.10" = Some total
          /\ math.eqb (math.Floor total) total = false
          /\ math.eqb (math.Mod total math.quarter) (S754_zero false) = false).
Proof.
  intros H. apply tally_inr in H as (total & date & clock & Ht & Hd & Hc & _ & ->).
  exists date, clock. do 2 (split; [assumption|]).
  split; [|split; [|split]].
  - intros E. rewrite E, ParseFloat_100_00 in Ht. inversion Ht. reflexivity.
  - intros E. rewrite E, ParseFloat_10_10 in Ht. inversion Ht. reflexivity.
  - eexists. split; [apply ParseFloat_100_00|]. split; reflexivity.
  - eexists. split; [apply ParseFloat_10_10|]. split; reflexivity.
Qed.

(** ** The item-pair bonus *)

(** C7.  For a receipt whose fields all parse, the item-pair rule
    contributes 5 * floor(n / 2) to the tally, [n] being the number of
    items: nothing for no item, 5 for two and for three items, 10 for
    four; an item added to an even number of items adds nothing. *)
Theorem item_pair_bonus_is_5_per_two_items receipt pts :
  tally receipt = inr pts ->
  exists total date clock,
    strconv.ParseFloat (Total receipt) = Some total
    /\ time.ParseDate (Date receipt) = Some date
    /\ time.ParseClock (Time receipt) = Some clock
    /\ pts = wrap64 (retailerPoints (Retailer receipt)
                     + roundDollarBonus total + quarterBonus total
                     + 5 * (Z.of_nat (length (Items receipt)) / 2)
                     + descriptionBonus byteLengthQualifies (Items receipt)
                     + oddDayBonus date + afternoonBonus clock)
    /\ (length (Items receipt) = 0%nat ->
        5 * (Z.of_nat (length (Items receipt)) / 2) = 0)
    /\ (length (Items receipt) = 2%nat ->
        5 * (Z.of_nat (length (Items receipt)) / 2) = 5)
    /\ (length (Items receipt) = 3%nat ->
        5 * (Z.of_nat (length (Items receipt)) / 2) = 5)
    /\ (length (Items receipt) = 4%nat ->
        5 * (Z.of_nat (length (Items receipt)) / 2) = 10)
    /\ (forall item,
          Nat.even (length (Items receipt)) = true ->
          itemPairBonus (Items receipt ++ [item])
          = itemPairBonus (Items receipt)).
Proof.
  intros H. apply tally_inr in H as (total & date & clock & Ht & Hd & Hc & _ & ->).
  exists total, date, clock. do 3 (split; [assumption|]).
  split; [reflexivity|].
  repeat split; try (intros ->; reflexivity).
  intros item Heven. unfold itemPairBonus. rewrite length_app. simpl.
  apply Nat.even_spec in Heven as [k ->]. f_equal.
  replace (Z.of_nat (2 * k + 1)) with (1 + Z.of_nat k * 2) by lia.
  replace (Z.of_nat (2 * k)) with (0 + Z.of_nat k * 2) by lia.
  rewrite !Z.div_add by lia. reflexivity.
Qed.

(** ** Negative amounts *)

(** C10.  No amount is checked for its sign.  The total -5.00 parses to
    a negative float and still earns the 50 and the 25 points, so that a
    receipt scoring on nothing else gets 75; a qualifying item priced
    -1000.00 contributes int(ceil(-1000 * 0.2)) = -200 points, and the
    receipt with that item is recorded with -125 points. *)
Theorem negative_amounts_are_scored (w : World) :
  (exists total,
     strconv.ParseFloat (Total negativeTotalReceipt) = Some total
     /\ SFltb total (S754_zero false) = true
     /\ roundDollarBonus total = 50
     /\ quarterBonus total = 25)
  /\ tally negativeTotalReceipt = inr 75
  /\ (exists price,
        strconv.ParseFloat "-1000.00" = Some price
        /\ SFltb price (S754_zero false) = true
        /\ math.toInt (math.Ceil (math.mul price math.fifth)) = -200)
  /\ tally negativePriceReceipt = inr (-125)
  /\ receiptPoints (snd (scanReceipt negativePriceReceipt w))
       !! uuids w (drawn w) = Some (-125).
Proof.
  assert (Hneg : tally negativePriceReceipt = inr (-125))
    by (vm_compute; reflexivity).
  split; [|split; [|split; [|split]]].
  - eexists. split; [vm_compute; reflexivity|].
    repeat split; vm_compute; reflexivity.
  - vm_compute. reflexivity.
  - eexists. split; [vm_compute; reflexivity|].
    split; vm_compute; reflexivity.
  - exact Hneg.
  - unfold scanReceipt. rewrite Hneg. cbn [snd receiptPoints].
    apply lookup_insert_eq.
Qed.

(** ** Retrieval *)

(** C8.  [getPoints] is a total function of the identifier and the
    world.  It leaves the world as it found it; it answers 200 with the
    stored points when the identifier is in the map and 404 with the
    message [Points not found for that id.] when it is not.  In the world
    [main] starts from every identifier is unknown, and the identifier
    returned by a successful [scanReceipt] retrieves the points tallied. *)
Theorem getPoints_finds_or_reports_and_keeps_the_world inputId (w : World) :
  snd (getPoints inputId w) = w
  /\ match receiptPoints w !! inputId with
     | Some points =>
       fst (getPoints inputId w) = IndentedJSON StatusOK "points" (JInt points)
     | None =>
       fst (getPoints inputId w)
       = IndentedJSON StatusNotFound "message"
                      (JString "Points not found for that id.")
     end
  /\ (forall source,
        fst (getPoints inputId (main source))
        = IndentedJSON StatusNotFound "message"
                       (JString "Points not found for that id."))
  /\ (forall receipt totalPoints,
        tally receipt = inr totalPoints ->
        fst (getPoints (uuids w (drawn w)) (snd (scanReceipt receipt w)))
        = IndentedJSON StatusOK "points" (JInt totalPoints)).
Proof.
  unfold getPoints. split; [|split; [|split]].
  - destruct (receiptPoints w !! inputId); reflexivity.
  - destruct (receiptPoints w !! inputId); reflexivity.
  - intros source. cbn [main receiptPoints]. rewrite lookup_empty. reflexivity.
  - intros receipt totalPoints H. unfold scanReceipt. rewrite H.
    cbn [snd receiptPoints]. rewrite lookup_insert_eq. reflexivity.
Qed.

(** ** Validation *)

Lemma tally_validate receipt :
  match validate receipt with
  | Some e => tally receipt = inl (messageOf e)
  | None => exists pts, tally receipt = inr pts
  end.
Proof.
  unfold validate, tally.
  destruct (strconv.ParseFloat (Total receipt)) as [total|]; [|reflexivity].
  destruct (time.ParseDate (Date receipt)) as [date|]; [|reflexivity].
  destruct (time.ParseClock (Time receipt)) as [clock|]; [|reflexivity].
  cbv zeta.
  match goal with
  | |- context [itemLoop _ ?acc] =>
    pose proof (itemLoop_find (Items receipt) acc) as Hloop
  end.
  destruct (List.find badPrice (Items receipt)) as [item|].
  - rewrite Hloop. reflexivity.
  - destruct Hloop as [pts ->]. eauto.
Qed.

Lemma find_badPrice_first before item after :
  (forall i, In i before -> byteLengthQualifies i = true ->
             is_Some (strconv.ParseFloat (Price i))) ->
  byteLengthQualifies item = true ->
  strconv.ParseFloat (Price item) = None ->
  List.find badPrice (before ++ item :: after) = Some item.
Proof.
  intros Hbefore Hq Hp. induction before as [|i before IH]; simpl.
  - unfold badPrice. rewrite Hq, Hp. reflexivity.
  - unfold badPrice at 1.
    destruct (byteLengthQualifies i) eqn:Eq; simpl.
    + destruct (Hbefore i (or_introl eq_refl) Eq) as [price ->].
      apply IH. intros j Hj. apply Hbefore. right. exact Hj.
    + apply IH. intros j Hj. apply Hbefore. right. exact Hj.
Qed.

Lemma find_badPrice_none items :
  (forall i, In i items -> byteLengthQualifies i = true ->
             is_Some (strconv.ParseFloat (Price i))) ->
  List.find badPrice items = None.
Proof.
  intros Hall. destruct (List.find badPrice items) as [item|] eqn:E;
    [|reflexivity].
  apply find_some in E as [Hin Hbad]. unfold badPrice in Hbad.
  destruct (byteLengthQualifies item) eqn:Eq; [|discriminate].
  destruct (Hall item Hin Eq) as [price Hp]. rewrite Hp in Hbad. discriminate.
Qed.

(** C5, amended.  Validation proceeds in the order total, date, time,
    each failure ending the tally with its own message; item prices are
    only parsed for items that pass the length test of the loop, their
    trimmed description having a length in bytes divisible by 3, in
    sequence order, so that the first such item whose price does not parse
    ends the tally with the message carrying its description, and a
    receipt all of whose qualifying items have a price that parses is
    scored whatever the prices of the other items.  The messages of
    distinct error kinds are distinct, and [tally] agrees with
    [validate]. *)
Theorem validation_is_ordered_and_prices_are_checked_lazily receipt :
  (strconv.ParseFloat (Total receipt) = None ->
   tally receipt = inl "Failed to parse receipt total to float.")
  /\ (is_Some (strconv.ParseFloat (Total receipt)) ->
      time.ParseDate (Date receipt) = None ->
      tally receipt = inl "Failed to parse receipt purchaseDate.")
  /\ (is_Some (strconv.ParseFloat (Total receipt)) ->
      is_Some (time.ParseDate (Date receipt)) ->
      time.ParseClock (Time receipt) = None ->
      tally receipt = inl "Failed to parse receipt purchaseTime.")
  /\ (is_Some (strconv.ParseFloat (Total receipt)) ->
      is_Some (time.ParseDate (Date receipt)) ->
      is_Some (time.ParseClock (Time receipt)) ->
      forall before item after,
        Items receipt = before ++ item :: after ->
        (forall i, In i before -> byteLengthQualifies i = true ->
                   is_Some (strconv.ParseFloat (Price i))) ->
        byteLengthQualifies item = true ->
        strconv.ParseFloat (Price item) = None ->
        tally receipt
        = inl ("Failed to parse price to float for item: " +:+ Description item))
  /\ (is_Some (strconv.ParseFloat (Total receipt)) ->
      is_Some (time.ParseDate (Date receipt)) ->
      is_Some (time.ParseClock (Time receipt)) ->
      (forall i, In i (Items receipt) -> byteLengthQualifies i = true ->
                 is_Some (strconv.ParseFloat (Price i))) ->
      exists pts, tally receipt = inr pts)
  /\ (forall e1 e2, messageOf e1 = messageOf e2 -> e1 = e2)
  /\ match validate receipt with
     | Some e => tally receipt = inl (messageOf e)
     | None => exists pts, tally receipt = inr pts
     end.
Proof.
  pose proof (tally_validate receipt) as Hv. unfold validate in Hv.
  split; [|split; [|split; [|split; [|split; [|split]]]]].
  - intros Ht. rewrite Ht in Hv. exact Hv.
  - intros [total Ht] Hd. rewrite Ht, Hd in Hv. exact Hv.
  - intros [total Ht] [date Hd] Hc. rewrite Ht, Hd, Hc in Hv. exact Hv.
  - intros [total Ht] [date Hd] [clock Hc] before item after Hi Hb Hq Hp.
    rewrite Ht, Hd, Hc, Hi, (find_badPrice_first _ _ _ Hb Hq Hp) in Hv.
    exact Hv.
  - intros [total Ht] [date Hd] [clock Hc] Hall.
    rewrite Ht, Hd, Hc, (find_badPrice_none _ Hall) in Hv. exact Hv.
  - exact messageOf_inj.
  - apply tally_validate.
Qed.

(** C4, amended.  A receipt with a malformed field (a total, date or
    time that does not parse, or an item that passes the length test of
    the loop, its trimmed description having a length in bytes divisible
    by 3, and whose price does not parse) is not scored: [scanReceipt]
    answers 400 with the message of the first validation error and
    returns the world it was given, in which no identifier has been drawn
    and the map is the same. *)
Theorem malformed_field_aborts_and_records_nothing receipt (w : World) :
  (strconv.ParseFloat (Total receipt) = None
   \/ time.ParseDate (Date receipt) = None
   \/ time.ParseClock (Time receipt) = None
   \/ exists item, In item (Items receipt)
        /\ byteLengthQualifies item = true
        /\ strconv.ParseFloat (Price item) = None) ->
  exists e,
    validate receipt = Some e
    /\ scanReceipt receipt w
       = (IndentedJSON StatusBadRequest "message" (JString (messageOf e)), w).
Proof.
  intros Hbad. pose proof (tally_validate receipt) as Hv.
  destruct (validate receipt) as [e|] eqn:E.
  - exists e. split; [reflexivity|]. unfold scanReceipt. rewrite Hv. reflexivity.
  - exfalso. unfold validate in E.
    destruct (strconv.ParseFloat (Total receipt)); [|discriminate].
    destruct (time.ParseDate (Date receipt)); [|discriminate].
    destruct (time.ParseClock (Time receipt)); [|discriminate].
    destruct (List.find badPrice (Items receipt)) eqn:Ef; [discriminate|].
    destruct Hbad as [?|[?|[?|(item & Hin & Hq & Hp)]]]; try discriminate.
    apply (find_none _ _ Ef) in Hin. unfold badPrice in Hin.
    rewrite Hq, Hp in Hin. discriminate.
Qed.

(** ** The description-length bonus *)

Lemma descriptionBonus_parsed items :
  List.find badPrice items = None ->
  forall item, In item items -> byteLengthQualifies item = true ->
    exists price, strconv.ParseFloat (Price item) = Some price
      /\ pricePoints item = math.toInt (math.Ceil (math.mul price math.fifth)).
Proof.
  intros Hfind item Hin Hq. apply (find_none _ _ Hfind) in Hin.
  unfold badPrice in Hin. rewrite Hq in Hin. unfold pricePoints.
  destruct (strconv.ParseFloat (Price item)) as [price|]; [eauto|discriminate].
Qed.

(** C3, amended.  For a receipt whose fields all parse, an item earns
    int(ceil(price * 0.2)) points exactly when the length in bytes of its
    description, trimmed of leading and trailing white space, is a
    multiple of 3; the price of each such item parses.  For descriptions
    of ASCII bytes the number of bytes is the number of characters.  The
    all-blank description trims to length zero, which qualifies. *)
Theorem description_bonus_counts_trimmed_bytes receipt pts :
  tally receipt = inr pts ->
  exists total date clock,
    strconv.ParseFloat (Total receipt) = Some total
    /\ time.ParseDate (Date receipt) = Some date
    /\ time.ParseClock (Time receipt) = Some clock
    /\ pts = wrap64 (retailerPoints (Retailer receipt)
                     + roundDollarBonus total + quarterBonus total
                     + itemPairBonus (Items receipt)
                     + fold_right
                         (fun item acc =>
                            (if len (strings.TrimSpace (Description item)) mod 3 =? 0
                             then pricePoints item else 0) + acc)
                         0 (Items receipt)
                     + oddDayBonus date + afternoonBonus clock)
    /\ (forall item, In item (Items receipt) ->
          len (strings.TrimSpace (Description item)) mod 3 = 0 ->
          exists price, strconv.ParseFloat (Price item) = Some price
            /\ pricePoints item
               = math.toInt (math.Ceil (math.mul price math.fifth)))
    /\ (forall item, In item (Items receipt) ->
          isASCII (Description item) = true ->
          utf8.RuneCountInString (strings.TrimSpace (Description item))
          = len (strings.TrimSpace (Description item)))
    /\ len (strings.TrimSpace "   ") mod 3 = 0.
Proof.
  intros H.
  apply tally_inr in H as (total & date & clock & Ht & Hd & Hc & Hfind & ->).
  exists total, date, clock. do 3 (split; [assumption|]).
  split; [reflexivity|]. split; [|split].
  - intros item Hin Hq. apply (descriptionBonus_parsed _ Hfind item Hin).
    unfold byteLengthQualifies. apply Z.eqb_eq, Hq.
  - intros item _ Hascii. apply ascii_description_chars_are_bytes, Hascii.
  - reflexivity.
Qed.

End Properties.

(** * Further properties *)

(** ** Runs of requests *)

Section Runs.
Context {P : Platform}.

(** ** One request *)

Lemma route_cases req (w : World) :
  (created (fst (route req w)) = false /\ snd (route req w) = w)
  \/ (created (fst (route req w)) = true
      /\ exists receipt totalPoints,
           req = PostProcess (Some receipt)
           /\ tally receipt = inr totalPoints
           /\ fst (route req w)
              = IndentedJSON StatusCreated "id" (JString (uuids w (drawn w)))
           /\ snd (route req w)
              = {| receiptPoints :=
                     <[uuids w (drawn w) := totalPoints]> (receiptPoints w);
                   uuids := uuids w;
                   drawn := S (drawn w) |}).
Proof.
  destruct req as [[receipt|]|id]; cbn [route].
  - unfold scanReceipt. destruct (tally receipt) as [message|totalPoints] eqn:E.
    + left. split; reflexivity.
    + right. split; [reflexivity|]. exists receipt, totalPoints. auto.
  - left. split; reflexivity.
  - left. unfold getPoints.
    destruct (receiptPoints w !! id); split; reflexivity.
Qed.

(** X1.  Every request is answered 200, 201, 400 or 404 and leaves the
    source of identifiers as it was.  A request answered otherwise than
    201 leaves the whole world as it was.  A request answered 201 is
    answered with the next identifier of the source, takes that one
    identifier from it, leaves an entry under it in the map and changes
    the entry of no other identifier. *)
Theorem world_changes_exactly_on_201 req (w : World) :
  let resp := fst (route req w) in
  let w' := snd (route req w) in
  (status resp = StatusOK \/ status resp = StatusCreated
   \/ status resp = StatusBadRequest \/ status resp = StatusNotFound)
  /\ uuids w' = uuids w
  /\ (status resp <> StatusCreated -> w' = w)
  /\ (status resp = StatusCreated ->
      resp = IndentedJSON StatusCreated "id" (JString (uuids w (drawn w)))
      /\ drawn w' = S (drawn w)
      /\ is_Some (receiptPoints w' !! uuids w (drawn w))
      /\ forall id, id <> uuids w (drawn w) ->
           receiptPoints w' !! id = receiptPoints w !! id).
Proof.
  intros resp w'. subst resp w'. split.
  { destruct req as [[receipt|]|id]; cbn [route].
    - unfold scanReceipt. destruct (tally receipt); cbn; auto.
    - cbn. auto.
    - unfold getPoints. destruct (receiptPoints w !! id); cbn; auto. }
  destruct (route_cases req w) as [[Hc Hw]|(Hc & receipt & pts & -> & Ht & Hr & Hw)].
  - rewrite Hw. split; [reflexivity|]. split; [reflexivity|].
    intros Hs. unfold created in Hc. rewrite Hs in Hc. discriminate.
  - rewrite Hw, Hr. cbn. split; [reflexivity|]. split.
    + intros Hne. exfalso. apply Hne. reflexivity.
    + intros _. split; [reflexivity|]. split; [reflexivity|]. split.
      * rewrite lookup_insert_eq. eauto.
      * intros id Hid. rewrite lookup_insert_ne by congruence. reflexivity.
Qed.

(** ** Runs *)

Lemma serve_cons req reqs (w : World) :
  serve (req :: reqs) w
  = (fst (route req w) :: fst (serve reqs (snd (route req w))),
     snd (serve reqs (snd (route req w)))).
Proof.
  cbn [serve]. destruct (route req w) as [resp w1]. cbn [fst snd].
  destruct (serve reqs w1) as [resps w2]. reflexivity.
Qed.

Lemma serve_app reqs1 reqs2 (w : World) :
  serve (reqs1 ++ reqs2) w
  = (fst (serve reqs1 w) ++ fst (serve reqs2 (snd (serve reqs1 w))),
     snd (serve reqs2 (snd (serve reqs1 w)))).
Proof.
  revert w. induction reqs1 as [|req reqs1 IH]; intros w.
  - cbn. destruct (serve reqs2 w). reflexivity.
  - rewrite <- app_comm_cons, !serve_cons, IH. reflexivity.
Qed.

Lemma route_uuids req (w : World) : uuids (snd (route req w)) = uuids w.
Proof.
  destruct (route_cases req w) as [[_ ->]|(_ & ? & ? & _ & _ & _ & ->)];
    reflexivity.
Qed.

Lemma serve_uuids reqs : forall w : World, uuids (snd (serve reqs w)) = uuids w.
Proof.
  induction reqs as [|req reqs IH]; intros w; [reflexivity|].
  rewrite serve_cons. cbn [snd]. rewrite IH. apply route_uuids.
Qed.

Lemma route_keeps_keys req (w : World) id :
  is_Some (receiptPoints w !! id) ->
  is_Some (receiptPoints (snd (route req w)) !! id).
Proof.
  intros H.
  destruct (route_cases req w) as [[_ ->]|(_ & ? & pts & _ & _ & _ & ->)];
    [exact H|].
  cbn. destruct (decide (uuids w (drawn w) = id)) as [->|Hne].
  - rewrite lookup_insert_eq. eauto.
  - rewrite lookup_insert_ne by exact Hne. exact H.
Qed.

(** X2.  No run of requests removes an entry of the map: an identifier
    that has points before the run has points after it. *)
Theorem issued_identifier_is_never_lost reqs : forall (w : World) id,
  is_Some (receiptPoints w !! id) ->
  is_Some (receiptPoints (snd (serve reqs w)) !! id).
Proof.
  induction reqs as [|req reqs IH]; intros w id H; [exact H|].
  rewrite serve_cons. cbn [snd]. apply IH, route_keeps_keys, H.
Qed.

Lemma route_drawn req (w : World) :
  drawn (snd (route req w))
  = (drawn w + (if created (fst (route req w)) then 1 else 0))%nat.
Proof.
  destruct (route_cases req w) as [[-> ->]|(-> & ? & ? & _ & _ & _ & ->)];
    cbn; lia.
Qed.

Lemma route_keysIssued req (w : World) :
  keysIssued w -> keysIssued (snd (route req w)).
Proof.
  intros Hinv.
  destruct (route_cases req w) as [[_ ->]|(_ & ? & pts & _ & _ & _ & ->)];
    [exact Hinv|].
  intros id. cbn. destruct (decide (uuids w (drawn w) = id)) as [<-|Hne].
  - intros _. exists (drawn w). cbn. split; [lia | reflexivity].
  - rewrite lookup_insert_ne by exact Hne. intros H.
    destruct (Hinv id H) as (k & Hk & Hid). exists k. cbn. split; [lia | exact Hid].
Qed.

Lemma serve_keysIssued reqs : forall w : World,
  keysIssued w -> keysIssued (snd (serve reqs w)).
Proof.
  induction reqs as [|req reqs IH]; intros w H; [exact H|].
  rewrite serve_cons. cbn [snd]. apply IH, route_keysIssued, H.
Qed.

Lemma main_keysIssued source : keysIssued (main source).
Proof.
  intros id [pts H]. cbn in H. rewrite lookup_empty in H. discriminate.
Qed.

Lemma route_keeps_points req (w : World) id pts :
  neverRepeats (uuids w) -> keysIssued w ->
  receiptPoints w !! id = Some pts ->
  receiptPoints (snd (route req w)) !! id = Some pts.
Proof.
  intros Hinj Hinv H.
  destruct (route_cases req w) as [[_ ->]|(_ & ? & pts' & _ & _ & _ & ->)];
    [exact H|].
  cbn. rewrite lookup_insert_ne; [exact H|].
  intros <-. destruct (Hinv _ (ex_intro _ pts H)) as (k & Hk & Hid).
  apply Hinj in Hid. lia.
Qed.

Lemma serve_keeps_points reqs : forall (w : World) id pts,
  neverRepeats (uuids w) -> keysIssued w ->
  receiptPoints w !! id = Some pts ->
  receiptPoints (snd (serve reqs w)) !! id = Some pts.
Proof.
  induction reqs as [|req reqs IH]; intros w id pts Hinj Hinv H; [exact H|].
  rewrite serve_cons. cbn [snd]. apply IH.
  - rewrite route_uuids. exact Hinj.
  - apply route_keysIssued, Hinv.
  - apply route_keeps_points; assumption.
Qed.

Lemma serve_length reqs : forall w : World,
  length (fst (serve reqs w)) = length reqs.
Proof.
  induction reqs as [|req reqs IH]; intros w; [reflexivity|].
  rewrite serve_cons. cbn. f_equal. apply IH.
Qed.

Lemma serve_drawn reqs : forall w : World,
  drawn (snd (serve reqs w))
  = (drawn w + length (List.filter created (fst (serve reqs w))))%nat.
Proof.
  induction reqs as [|req reqs IH]; intros w.
  - cbn. lia.
  - rewrite serve_cons. cbn [fst snd List.filter]. rewrite IH, route_drawn.
    destruct (created (fst (route req w))); cbn [length]; lia.
Qed.

(** X3.  When the source of identifiers never delivers the same one
    twice, a receipt that is scored in the course of a run started by
    [main] is answered 201 with an identifier under which [getPoints], at
    the end of the run, answers 200 with the points of that receipt,
    whatever was requested before and after. *)
Theorem score_is_retrievable_ever_after source before receipt after pts :
  neverRepeats source ->
  tally receipt = inr pts ->
  let w := snd (serve before (main source)) in
  let id := source (drawn w) in
  let run := serve (before ++ PostProcess (Some receipt) :: after) (main source) in
  nth_error (fst run) (length before)
    = Some (IndentedJSON StatusCreated "id" (JString id))
  /\ fst (getPoints id (snd run)) = IndentedJSON StatusOK "points" (JInt pts).
Proof.
  intros Hinj Ht w id run. subst run.
  assert (Hu : uuids w = source) by apply serve_uuids.
  assert (Hk : keysIssued w) by apply serve_keysIssued, main_keysIssued.
  rewrite serve_app, serve_cons. cbn [fst snd].
  change (snd (serve before (main source))) with w.
  assert (Hr : route (PostProcess (Some receipt)) w
               = (IndentedJSON StatusCreated "id" (JString id),
                  {| receiptPoints := <[id := pts]> (receiptPoints w);
                     uuids := uuids w; drawn := S (drawn w) |})).
  { cbn [route]. unfold scanReceipt. rewrite Ht, Hu. reflexivity. }
  rewrite Hr. cbn [fst snd]. split.
  - rewrite nth_error_app2 by (rewrite serve_length; lia).
    rewrite serve_length, Nat.sub_diag. reflexivity.
  - unfold getPoints.
    rewrite (serve_keeps_points after _ id pts).
    + reflexivity.
    + cbn. rewrite Hu. exact Hinj.
    + pose proof (route_keysIssued (PostProcess (Some receipt)) w Hk) as Hk'.
      rewrite Hr in Hk'. exact Hk'.
    + cbn. apply lookup_insert_eq.
Qed.

Lemma route_size req (w : World) :
  neverRepeats (uuids w) -> keysIssued w ->
  size (receiptPoints (snd (route req w)))
  = (size (receiptPoints w) + (if created (fst (route req w)) then 1 else 0))%nat.
Proof.
  intros Hinj Hinv.
  destruct (route_cases req w) as [[-> ->]|(-> & ? & pts & _ & _ & _ & ->)];
    [lia|].
  cbn. rewrite map_size_insert_None; [lia|].
  destruct (receiptPoints w !! uuids w (drawn w)) as [old|] eqn:E; [|reflexivity].
  destruct (Hinv _ (ex_intro _ old E)) as (k & Hk & Hid).
  apply Hinj in Hid. lia.
Qed.

(** X4.  After a run started by [main], the number of identifiers drawn
    is the number of 201 responses, every key of the map is one of the
    identifiers drawn, and the map has at most that many entries; exactly
    that many when the source never delivers the same identifier twice. *)
Theorem ledger_counts_the_201_responses source reqs :
  let run := serve reqs (main source) in
  drawn (snd run) = length (List.filter created (fst run))
  /\ keysIssued (snd run)
  /\ (size (receiptPoints (snd run)) <= drawn (snd run))%nat
  /\ (neverRepeats source ->
      size (receiptPoints (snd run)) = length (List.filter created (fst run))).
Proof.
  intros run. subst run.
  split; [rewrite serve_drawn; reflexivity|].
  split; [apply serve_keysIssued, main_keysIssued|].
  assert (Hgen : forall reqs (w : World),
            (size (receiptPoints w) <= drawn w)%nat ->
            (size (receiptPoints (snd (serve reqs w)))
             <= drawn (snd (serve reqs w)))%nat).
  { clear. induction reqs as [|req reqs IH]; intros w H; [exact H|].
    rewrite serve_cons. cbn [snd]. apply IH.
    destruct (route_cases req w) as [[_ ->]|(_ & ? & pts & _ & _ & _ & ->)];
      [exact H|].
    cbn. destruct (receiptPoints w !! uuids w (drawn w)) as [old|] eqn:E.
    + rewrite map_size_insert_Some by (rewrite E; eauto). lia.
    + rewrite map_size_insert_None by exact E. lia. }
  split; [apply Hgen; cbn; rewrite map_size_empty; lia|].
  intros Hinj.
  assert (Hgen2 : forall reqs (w : World),
            neverRepeats (uuids w) -> keysIssued w ->
            size (receiptPoints (snd (serve reqs w)))
            = (size (receiptPoints w)
               + length (List.filter created (fst (serve reqs w))))%nat).
  { clear. induction reqs as [|req reqs IH]; intros w Hinj Hinv.
    - cbn. lia.
    - rewrite serve_cons. cbn [fst snd List.filter].
      rewrite IH, route_size by
        (try rewrite route_uuids; try apply route_keysIssued; assumption).
      destruct (created (fst (route req w))); cbn [length]; lia. }
  rewrite Hgen2 by (try exact Hinj; apply main_keysIssued).
  cbn. rewrite map_size_empty. lia.
Qed.
End Runs.

(** ** The retailer rule *)

Lemma rangeFrom_length s : forall skip,
  (length (utf8.rangeFrom skip s) <= String.length s)%nat.
Proof.
  induction s as [|c s IH]; intros skip; [cbn; lia|].
  cbn [utf8.rangeFrom String.length]. destruct skip as [|k].
  - destruct (utf8.DecodeRuneInString (String c s)) as [r size].
    cbn [length]. specialize (IH (size - 1)%nat). lia.
  - specialize (IH k). lia.
Qed.

Lemma range_ascii_bytes s :
  isASCII s = true -> utf8.range s = bytesOf s.
Proof.
  unfold utf8.range. induction s as [|c s IH]; intros H; [reflexivity|].
  simpl in H. apply andb_prop in H as [Hc Hs].
  cbn [utf8.rangeFrom utf8.DecodeRuneInString bytesOf]. rewrite Hc.
  simpl. f_equal. apply IH, Hs.
Qed.

Lemma byteOf_range c : 0 <= byteOf c < 256.
Proof.
  unfold byteOf. destruct c as [[] [] [] [] [] [] [] []]; cbn; lia.
Qed.

Section RetailerRule.
Context {P : Platform}.

Lemma isAlphanumeric_ascii r :
  0 <= r < utf8.RuneSelf -> isAlphanumeric r = asciiAlphanumeric r.
Proof.
  unfold utf8.RuneSelf. intros Hr.
  unfold isAlphanumeric, unicode.IsLetter, unicode.IsDigit,
    unicode.latin1Letter, unicode.MaxLatin1, asciiAlphanumeric.
  apply Bool.eq_iff_eq_true.
  replace ((0 <=? r) && (r <=? 255)) with true by (symmetry; lia).
  replace (r <=? 255) with true by (symmetry; lia).
  rewrite !orb_true_iff, !andb_true_iff, !Z.leb_le, !Z.eqb_eq. lia.
Qed.

Lemma filter_isAlphanumeric_ascii s :
  isASCII s = true ->
  List.filter isAlphanumeric (bytesOf s)
  = List.filter asciiAlphanumeric (bytesOf s).
Proof.
  induction s as [|c s IH]; intros H; [reflexivity|].
  simpl in H. apply andb_prop in H as [Hc Hs]. apply Z.ltb_lt in Hc.
  cbn [bytesOf List.filter].
  rewrite isAlphanumeric_ascii by (pose proof (byteOf_range c); lia).
  rewrite IH by exact Hs. reflexivity.
Qed.

(** X5.  The number of characters that the loop over the retailer name
    collects is the number of letters and digits among the characters of
    the name; it lies between 0 and the length of the name in bytes; and
    for a name of ASCII bytes it is the number of bytes in [0-9], [A-Z]
    and [a-z]. *)
Theorem retailer_points_count_letters_and_digits retailer :
  let n := Z.of_nat (length (alphanumericChars (utf8.range retailer) [])) in
  n = retailerPoints retailer
  /\ 0 <= n <= len retailer
  /\ (isASCII retailer = true ->
      n = Z.of_nat (length (List.filter asciiAlphanumeric (bytesOf retailer)))).
Proof.
  intros n. subst n. rewrite alphanumericChars_length. cbn [length Nat.add].
  split; [reflexivity|]. split.
  - pose proof (filter_length_le isAlphanumeric (utf8.range retailer)).
    pose proof (rangeFrom_length retailer 0). unfold utf8.range, len in *. lia.
  - intros H. rewrite range_ascii_bytes, filter_isAlphanumeric_ascii by exact H.
    reflexivity.
Qed.
End RetailerRule.

(** ** Integral totals *)

Lemma digits2_pos_iter_xO m k :
  Zpos (digits2_pos (Pos.iter xO m k)) = Zpos (digits2_pos m) + Zpos k.
Proof.
  induction k as [|k IH] using Pos.peano_ind.
  - cbn. lia.
  - rewrite Pos.iter_succ. cbn [digits2_pos]. lia.
Qed.

Lemma Zpos_iter_xO m k : Zpos (Pos.iter xO m k) = Zpos m * 2 ^ Zpos k.
Proof.
  induction k as [|k IH] using Pos.peano_ind.
  - cbn. lia.
  - rewrite Pos.iter_succ, Pos2Z.inj_succ, Z.pow_succ_r by lia.
    rewrite Pos2Z.inj_xO, IH. lia.
Qed.

Lemma shr_exponent mrs e n : e <= snd (shr mrs e n).
Proof. unfold shr. destruct n; cbn; lia. Qed.

(** Rounding never lowers the exponent it is given. *)
Lemma binary_round_aux_exponent sx mx ex lx s m e :
  binary_round_aux math.prec math.emax sx mx ex lx = S754_finite s m e ->
  ex <= e.
Proof.
  unfold binary_round_aux, shr_fexp.
  pose proof (shr_exponent (shr_record_of_loc mx lx) ex
                (fexp math.prec math.emax (Zdigits2 mx + ex) - ex)) as H1.
  destruct (shr (shr_record_of_loc mx lx) ex _) as [mrs' e'].
  cbn [snd] in H1.
  set (m1 := round_nearest_even (shr_m mrs') (loc_of_shr_record mrs')).
  pose proof (shr_exponent (shr_record_of_loc m1 loc_Exact) e'
                (fexp math.prec math.emax (Zdigits2 m1 + e') - e')) as H2.
  destruct (shr (shr_record_of_loc m1 loc_Exact) e' _) as [mrs'' e''].
  cbn [snd] in H2.
  destruct (shr_m mrs''); try discriminate.
  destruct (e'' <=? math.emax - math.prec); [|discriminate].
  intros H. inversion H. subst. lia.
Qed.

(** A mantissa that already has its canonical exponent is kept. *)
Lemma binary_round_aux_exact sx m e :
  fexp math.prec math.emax (Zpos (digits2_pos m) + e) = e ->
  e <= math.emax - math.prec ->
  binary_round_aux math.prec math.emax sx (Zpos m) e loc_Exact
  = S754_finite sx m e.
Proof.
  intros Hf He. unfold binary_round_aux, shr_fexp. cbn [Zdigits2].
  rewrite Hf, Z.sub_diag. cbn. rewrite Hf, Z.sub_diag. cbn.
  apply Z.leb_le in He. rewrite He. reflexivity.
Qed.

Lemma SFeqb_finite x s m e :
  SFeqb x (S754_finite s m e) = true -> x = S754_finite s m e.
Proof.
  unfold SFeqb, SFcompare. destruct x as [s1|s1| |s1 m1 e1].
  - destruct s; discriminate.
  - destruct s1; discriminate.
  - discriminate.
  - change (Pos.compare_cont Eq m1 m) with (Pos.compare m1 m).
    destruct s1, s; try discriminate;
      destruct (Z.compare_spec e1 e); try discriminate;
      destruct (Pos.compare m1 m) eqn:E; try discriminate;
      apply Pos.compare_eq in E; subst; reflexivity.
Qed.

(** When the float nearest to the integer [mx] has a negative exponent
    [e], its mantissa is [mx] scaled by [2^-e]: the integer is
    represented exactly. *)
Lemma binary_round_integer sx mx s m e :
  SFeqb (binary_round math.prec math.emax sx mx 0) (S754_finite s m e) = true ->
  e < 0 -> Zpos m = Zpos mx * 2 ^ (- e).
Proof.
  intros H He. apply SFeqb_finite in H. unfold binary_round in H.
  set (d := Zpos (digits2_pos mx)) in *.
  assert (Hd : 0 < d) by (subst d; lia).
  destruct (Z_lt_le_dec d 53) as [Hlt|Hge].
  - assert (Hf : fexp math.prec math.emax (d + 0) = d - 53).
    { unfold fexp, emin, math.prec, math.emax. lia. }
    rewrite Hf in H. unfold shl_align in H.
    destruct (d - 53 - 0) as [|q|q] eqn:Eq; try lia.
    rewrite binary_round_aux_exact in H.
    + inversion H. subst. rewrite Zpos_iter_xO. f_equal. f_equal. lia.
    + rewrite digits2_pos_iter_xO. fold d.
      unfold fexp, emin, math.prec, math.emax. lia.
    + unfold math.prec, math.emax. lia.
  - assert (Hf : 0 <= fexp math.prec math.emax (d + 0)).
    { unfold fexp, emin, math.prec, math.emax. lia. }
    unfold shl_align in H.
    destruct (fexp math.prec math.emax (d + 0) - 0) as [|q|q] eqn:Eq; try lia;
      apply binary_round_aux_exponent in H; lia.
Qed.

(** X6.  A total that is zero or a finite number earns 0 or 50 points by
    the round-dollar rule and 0 or 25 by the quarter rule, and whenever
    it earns the 50 it earns the 25 as well.  An infinite total earns
    the 50 and not the 25; a total that is not a number earns neither. *)
Theorem round_dollar_total_is_a_quarter_multiple (total : math.float64) :
  match total with
  | S754_infinity _ => roundDollarBonus total = 50 /\ quarterBonus total = 0
  | S754_nan => roundDollarBonus total = 0 /\ quarterBonus total = 0
  | _ =>
    (roundDollarBonus total = 0 \/ roundDollarBonus total = 50)
    /\ (quarterBonus total = 0 \/ quarterBonus total = 25)
    /\ (roundDollarBonus total = 50 -> quarterBonus total = 25)
  end.
Proof.
  destruct total as [s|s| |s m e]; try (destruct s; cbn; auto; fail).
  - cbn. auto.
  - unfold roundDollarBonus, quarterBonus.
    split; [destruct (math.eqb _ _); auto|].
    split; [destruct (math.eqb _ _); auto|].
    destruct (math.eqb (math.Floor (S754_finite s m e)) (S754_finite s m e))
      eqn:Hfloor; [intros _|discriminate].
    assert (Hrem : Z.rem (Z.shiftl (Zpos m) (e - Z.min e (-54)))
                         (Z.shiftl 4503599627370496 (-54 - Z.min e (-54))) = 0).
    { unfold math.Floor in Hfloor. destruct (0 <=? e) eqn:He.
      - apply Z.leb_le in He. rewrite Z.min_r by lia.
        rewrite Z.shiftl_mul_pow2 by lia.
        replace (e - -54) with ((e + 2) + 52) by lia.
        rewrite Z.pow_add_r by lia. change (-54 - -54) with 0.
        change (Z.shiftl 4503599627370496 0) with (2 ^ 52).
        rewrite Z.mul_assoc. apply Z.rem_mul. lia.
      - apply Z.leb_gt in He. unfold math.ofScaled, binary_normalize in Hfloor.
        assert (Hm : exists mx, Zpos m = Zpos mx * 2 ^ (- e)).
        { destruct (Z.shiftr (cond_Zopp s (Z.pos m)) (- e)) as [|mx|mx];
            [destruct s; discriminate| |];
            exists mx; apply (binary_round_integer _ _ _ _ _ Hfloor He). }
        destruct Hm as [mx Hm]. rewrite Hm.
        rewrite !Z.shiftl_mul_pow2 by lia.
        change 4503599627370496 with (2 ^ 52).
        destruct (Z_le_gt_dec (-54) e) as [Hle|Hgt].
        + rewrite Z.min_r by lia. change (-54 - -54) with 0.
          rewrite Z.pow_0_r, Z.mul_1_r, <- Z.mul_assoc, <- Z.pow_add_r by lia.
          replace (- e + (e - -54)) with (2 + 52) by lia.
          rewrite Z.pow_add_r, Z.mul_assoc by lia. apply Z.rem_mul. lia.
        + rewrite Z.min_l by lia. rewrite Z.sub_diag, Z.pow_0_r, Z.mul_1_r.
          rewrite <- Z.pow_add_r by lia.
          replace (- e) with (2 + (52 + (-54 - e))) at 1 by lia.
          rewrite Z.pow_add_r, Z.mul_assoc by lia. apply Z.rem_mul.
          apply Z.pow_nonzero; lia. }
    unfold math.Mod, math.quarter. cbv zeta. rewrite Hrem.
    destruct s; reflexivity.
Qed.

(** ** Dates and times that parse *)

Lemma substring_all s : String.substring 0 (String.length s) s = s.
Proof. induction s as [|c s IH]; cbn; [reflexivity | now rewrite IH]. Qed.

Lemma slice_tail1 c0 t : slice (String c0 t) 1 (len (String c0 t)) = t.
Proof.
  unfold slice, len. cbn [String.length].
  replace (Z.to_nat (Z.of_nat (S (String.length t)) - 1))
    with (String.length t) by lia.
  change (Z.to_nat 1) with 1%nat. cbn. apply substring_all.
Qed.

Lemma slice_tail2 c0 c1 t :
  slice (String c0 (String c1 t)) 2 (len (String c0 (String c1 t))) = t.
Proof.
  unfold slice, len. cbn [String.length].
  replace (Z.to_nat (Z.of_nat (S (S (String.length t))) - 2))
    with (String.length t) by lia.
  change (Z.to_nat 2) with 2%nat. cbn. apply substring_all.
Qed.

Lemma at_0 c t : at_ (String c t) 0 = byteOf c.
Proof. reflexivity. Qed.

Lemma at_pos c t i : 0 < i -> at_ (String c t) i = at_ t (i - 1).
Proof.
  intros Hi. unfold at_. replace (Z.to_nat i) with (S (Z.to_nat (i - 1))) by lia.
  reflexivity.
Qed.

Lemma isDigit_0 s :
  time.isDigit s 0 = true ->
  exists c t, s = String c t /\ isDigitByte (byteOf c).
Proof.
  unfold time.isDigit, isDigitByte. destruct s as [|c t].
  - cbn. discriminate.
  - rewrite at_0. destruct (len (String c t) <=? 0) eqn:E; [discriminate|].
    intros H. exists c, t. split; [reflexivity | lia].
Qed.

Lemma isDigit_0_cons c t :
  time.isDigit (String c t) 0 = (48 <=? byteOf c) && (byteOf c <=? 57).
Proof.
  unfold time.isDigit. rewrite at_0. unfold len. cbn [String.length].
  destruct (Z.of_nat (S (String.length t)) <=? 0) eqn:E; [|reflexivity].
  apply Z.leb_le in E. lia.
Qed.

Lemma isDigit_1_cons c t : time.isDigit (String c t) 1 = time.isDigit t 0.
Proof.
  unfold time.isDigit. rewrite at_pos by lia. change (1 - 1) with 0.
  unfold len. cbn [String.length].
  destruct (Z.of_nat (S (String.length t)) <=? 1) eqn:E1,
           (Z.of_nat (String.length t) <=? 0) eqn:E2; try reflexivity;
    rewrite ?Z.leb_le, ?Z.leb_gt in *; lia.
Qed.

Lemma getnum_cons2 c0 c1 t fixed :
  isDigitByte (byteOf c0) -> isDigitByte (byteOf c1) ->
  time.getnum (String c0 (String c1 t)) fixed
  = Some ((byteOf c0 - 48) * 10 + (byteOf c1 - 48), t).
Proof.
  unfold isDigitByte. intros H0 H1. unfold time.getnum.
  rewrite isDigit_1_cons, !isDigit_0_cons.
  replace ((48 <=? byteOf c0) && (byteOf c0 <=? 57)) with true by (symmetry; lia).
  replace ((48 <=? byteOf c1) && (byteOf c1 <=? 57)) with true by (symmetry; lia).
  cbn [negb]. rewrite slice_tail2. reflexivity.
Qed.

Lemma getnum_cons1 c0 t :
  isDigitByte (byteOf c0) -> time.isDigit t 0 = false ->
  time.getnum (String c0 t) false = Some (byteOf c0 - 48, t).
Proof.
  unfold isDigitByte. intros H0 H1. unfold time.getnum.
  rewrite isDigit_1_cons, isDigit_0_cons, H1.
  replace ((48 <=? byteOf c0) && (byteOf c0 <=? 57)) with true by (symmetry; lia).
  cbn [negb]. rewrite slice_tail1. reflexivity.
Qed.

Lemma getnum_inv s fixed n rest :
  time.getnum s fixed = Some (n, rest) ->
  (exists c0 c1, s = String c0 (String c1 rest)
     /\ isDigitByte (byteOf c0) /\ isDigitByte (byteOf c1)
     /\ n = (byteOf c0 - 48) * 10 + (byteOf c1 - 48))
  \/ (fixed = false
      /\ exists c0, s = String c0 rest /\ isDigitByte (byteOf c0)
           /\ time.isDigit rest 0 = false /\ n = byteOf c0 - 48).
Proof.
  unfold time.getnum. destruct (time.isDigit s 0) eqn:E0; [|discriminate].
  apply isDigit_0 in E0 as (c0 & t & -> & H0). cbn [negb].
  rewrite isDigit_1_cons. destruct (time.isDigit t 0) eqn:E1; cbn [negb].
  - apply isDigit_0 in E1 as (c1 & t' & -> & H1). rewrite slice_tail2.
    rewrite (at_pos _ _ 1), !at_0 by lia. intros H. inversion H. subst. left. eauto 10.
  - destruct fixed; [discriminate|]. rewrite slice_tail1.
    rewrite at_0. intros H. inversion H. subst. right. eauto 10.
Qed.

Lemma skip_inv value prefix rest :
  time.skip value prefix = Some rest ->
  exists c, value = String c rest /\ byteOf c = prefix.
Proof.
  unfold time.skip. destruct value as [|c t]; [discriminate|].
  destruct (byteOf c =? prefix) eqn:E; [|discriminate].
  intros H. inversion H. subst. exists c. split; [reflexivity | lia].
Qed.

Lemma atoi4_inv c0 c1 c2 c3 y :
  time.atoi4 (String c0 (String c1 (String c2 (String c3 "")))) = Some y ->
  isDigitByte (byteOf c0) /\ isDigitByte (byteOf c1)
  /\ isDigitByte (byteOf c2) /\ isDigitByte (byteOf c3)
  /\ y = (byteOf c0 - 48) * 1000 + (byteOf c1 - 48) * 100
          + (byteOf c2 - 48) * 10 + (byteOf c3 - 48).
Proof.
  unfold time.atoi4.
  rewrite (isDigit_0_cons c0).
  rewrite (isDigit_1_cons c0), (isDigit_0_cons c1).
  set (s := String c0 (String c1 (String c2 (String c3 "")))).
  change (time.isDigit s 2)
    with ((48 <=? byteOf c2) && (byteOf c2 <=? 57)).
  change (time.isDigit s 3)
    with ((48 <=? byteOf c3) && (byteOf c3 <=? 57)).
  change (at_ s 0) with (byteOf c0). change (at_ s 1) with (byteOf c1).
  change (at_ s 2) with (byteOf c2). change (at_ s 3) with (byteOf c3).
  destruct (_ && _ && _ && _) eqn:E; [|discriminate].
  rewrite !andb_true_iff, !Z.leb_le in E. unfold isDigitByte.
  intros H. inversion H. repeat split; tauto.
Qed.

Lemma slice_tail4 c0 c1 c2 c3 t :
  let s := String c0 (String c1 (String c2 (String c3 t))) in
  slice s 0 4 = String c0 (String c1 (String c2 (String c3 "")))
  /\ slice s 4 (len s) = t.
Proof.
  intros s. subst s. unfold slice, len. cbn [String.length]. split.
  - change (Z.to_nat (4 - 0)) with 4%nat. change (Z.to_nat 0) with 0%nat.
    cbn. destruct t; reflexivity.
  - replace (Z.to_nat (Z.of_nat (S (S (S (S (String.length t))))) - 4))
      with (String.length t) by lia.
    change (Z.to_nat 4) with 4%nat. cbn. apply substring_all.
Qed.

Lemma ParseDate_bytes value date :
  time.ParseDate value = Some date ->
  0 <= time.Year date <= 9999
  /\ 1 <= time.Month date <= 12
  /\ 1 <= time.Day date <= time.daysIn (time.Month date) (time.Year date)
  /\ bytesOf value
     = dateBytes (time.Year date) (time.Month date) (time.Day date).
Proof.
  unfold time.ParseDate. intros H.
  destruct ((len value <? 4) || negb (time.isDigit value 0)) eqn:E0;
    [discriminate|].
  apply orb_false_elim in E0 as [Hlen _]. apply Z.ltb_ge in Hlen.
  destruct value as [|c0 [|c1 [|c2 [|c3 rest]]]];
    try (unfold len in Hlen; cbn in Hlen; lia).
  destruct (slice_tail4 c0 c1 c2 c3 rest) as [Hs1 Hs2]. cbv zeta in Hs1, Hs2.
  rewrite Hs1, Hs2 in H. clear Hs1 Hs2 Hlen.
  destruct (time.atoi4 _) as [year|] eqn:Ey; [|discriminate].
  apply atoi4_inv in Ey as (Hy0 & Hy1 & Hy2 & Hy3 & ->).
  cbn [mbind option_bind] in H.
  destruct (time.skip rest 45) as [v1|] eqn:E1; [|discriminate].
  apply skip_inv in E1 as (s1 & -> & Hs1). cbn [mbind option_bind] in H.
  destruct (time.getnum v1 true) as [[month v2]|] eqn:E2; [|discriminate].
  apply getnum_inv in E2
    as [(m0 & m1 & -> & Hm0 & Hm1 & ->)|[Hf _]]; [|discriminate].
  cbn [mbind option_bind] in H.
  destruct ((_ <=? 0) || (12 <? _)) eqn:Em; [discriminate|].
  destruct (time.skip v2 45) as [v3|] eqn:E3; [|discriminate].
  apply skip_inv in E3 as (s2 & -> & Hs2). cbn [mbind option_bind] in H.
  destruct (time.getnum v3 true) as [[day v4]|] eqn:E4; [|discriminate].
  apply getnum_inv in E4
    as [(d0 & d1 & -> & Hd0 & Hd1 & ->)|[Hf _]]; [|discriminate].
  cbn [mbind option_bind] in H.
  destruct (negb (len v4 =? 0)) eqn:E5; [discriminate|].
  destruct ((_ <? 1) || (_ <? _)) eqn:E6; [discriminate|].
  inversion H. subst. clear H. cbn [time.Year time.Month time.Day].
  assert (v4 = "") as ->.
  { destruct v4; [reflexivity|]. unfold len in E5. cbn in E5.
    apply negb_false_iff, Z.eqb_eq in E5. lia. }
  apply orb_false_elim in Em as [Em1 Em2], E6 as [E61 E62].
  rewrite ?Z.leb_gt, ?Z.ltb_ge in *.
  unfold isDigitByte in *. cbn [bytesOf]. unfold dateBytes.
  split; [lia|]. split; [lia|]. split; [lia|].
  repeat (apply (f_equal2 cons); [Z.div_mod_to_equations; lia|]). reflexivity.
Qed.

Lemma byteOf_ofByte b : 0 <= b < 256 -> byteOf (ofByte b) = b.
Proof.
  intros Hb. unfold byteOf, ofByte.
  rewrite N_ascii_embedding; lia.
Qed.

Lemma ofBytes_bytesOf s : ofBytes (bytesOf s) = s.
Proof.
  induction s as [|c s IH]; [reflexivity|].
  cbn [bytesOf ofBytes]. rewrite IH. f_equal.
  unfold ofByte, byteOf. rewrite N2Z.id. apply ascii_N_embedding.
Qed.

Lemma atoi4_digits c0 c1 c2 c3 :
  isDigitByte (byteOf c0) -> isDigitByte (byteOf c1) ->
  isDigitByte (byteOf c2) -> isDigitByte (byteOf c3) ->
  time.atoi4 (String c0 (String c1 (String c2 (String c3 ""))))
  = Some ((byteOf c0 - 48) * 1000 + (byteOf c1 - 48) * 100
          + (byteOf c2 - 48) * 10 + (byteOf c3 - 48)).
Proof.
  unfold isDigitByte. intros H0 H1 H2 H3. unfold time.atoi4.
  rewrite (isDigit_0_cons c0).
  rewrite (isDigit_1_cons c0), (isDigit_0_cons c1).
  set (s := String c0 (String c1 (String c2 (String c3 "")))).
  change (time.isDigit s 2)
    with ((48 <=? byteOf c2) && (byteOf c2 <=? 57)).
  change (time.isDigit s 3)
    with ((48 <=? byteOf c3) && (byteOf c3 <=? 57)).
  replace (_ && _ && _ && _) with true; [reflexivity|].
  symmetry. rewrite !andb_true_iff, !Z.leb_le. lia.
Qed.

Lemma daysIn_le_31 m y : 28 <= time.daysIn m y <= 31.
Proof.
  unfold time.daysIn.
  repeat match goal with |- context [if ?c then _ else _] => destruct c end;
    lia.
Qed.

Lemma ParseDate_dateBytes y m d :
  validDate y m d ->
  time.ParseDate (ofBytes (dateBytes y m d))
  = Some {| time.Year := y; time.Month := m; time.Day := d;
            time.Hour := 0; time.Minute := 0 |}.
Proof.
  intros (Hy & Hm & Hd). pose proof (daysIn_le_31 m y) as H31.
  unfold dateBytes. cbn [ofBytes].
  set (c0 := ofByte (48 + y / 1000)). set (c1 := ofByte (48 + y / 100 mod 10)).
  set (c2 := ofByte (48 + y / 10 mod 10)). set (c3 := ofByte (48 + y mod 10)).
  set (m0 := ofByte (48 + m / 10)). set (m1 := ofByte (48 + m mod 10)).
  set (d0 := ofByte (48 + d / 10)). set (d1 := ofByte (48 + d mod 10)).
  assert (Hc0 : byteOf c0 = 48 + y / 1000)
    by (apply byteOf_ofByte; Z.div_mod_to_equations; lia).
  assert (Hc1 : byteOf c1 = 48 + y / 100 mod 10)
    by (apply byteOf_ofByte; Z.div_mod_to_equations; lia).
  assert (Hc2 : byteOf c2 = 48 + y / 10 mod 10)
    by (apply byteOf_ofByte; Z.div_mod_to_equations; lia).
  assert (Hc3 : byteOf c3 = 48 + y mod 10)
    by (apply byteOf_ofByte; Z.div_mod_to_equations; lia).
  assert (Hm0 : byteOf m0 = 48 + m / 10)
    by (apply byteOf_ofByte; Z.div_mod_to_equations; lia).
  assert (Hm1 : byteOf m1 = 48 + m mod 10)
    by (apply byteOf_ofByte; Z.div_mod_to_equations; lia).
  assert (Hd0 : byteOf d0 = 48 + d / 10)
    by (apply byteOf_ofByte; Z.div_mod_to_equations; lia).
  assert (Hd1 : byteOf d1 = 48 + d mod 10)
    by (apply byteOf_ofByte; Z.div_mod_to_equations; lia).
  clearbody c0 c1 c2 c3 m0 m1 d0 d1.
  unfold time.ParseDate.
  set (rest := String (ofByte 45) _).
  destruct (slice_tail4 c0 c1 c2 c3 rest) as [Hs1 Hs2]. cbv zeta in Hs1, Hs2.
  rewrite Hs1, Hs2, isDigit_0_cons. clear Hs1 Hs2.
  replace (len _ <? 4) with false
    by (symmetry; apply Z.ltb_ge; unfold len; cbn [String.length]; lia).
  replace ((48 <=? byteOf c0) && (byteOf c0 <=? 57)) with true
    by (symmetry; rewrite andb_true_iff, !Z.leb_le;
        Z.div_mod_to_equations; lia).
  cbn [orb negb].
  rewrite atoi4_digits
    by (unfold isDigitByte; Z.div_mod_to_equations; lia).
  cbn [mbind option_bind]. subst rest. cbn [time.skip].
  change (byteOf (ofByte 45) =? 45) with true. cbn [mbind option_bind].
  rewrite getnum_cons2 by (unfold isDigitByte; Z.div_mod_to_equations; lia).
  cbn [mbind option_bind].
  replace ((_ <=? 0) || (12 <? _)) with false
    by (symmetry; rewrite orb_false_iff, Z.leb_gt, Z.ltb_ge;
        Z.div_mod_to_equations; lia).
  cbn [time.skip]. change (byteOf (ofByte 45) =? 45) with true.
  cbn [mbind option_bind].
  rewrite getnum_cons2 by (unfold isDigitByte; Z.div_mod_to_equations; lia).
  cbn [mbind option_bind]. change (negb (len "" =? 0)) with false.
  replace ((byteOf c0 - 48) * 1000 + (byteOf c1 - 48) * 100
           + (byteOf c2 - 48) * 10 + (byteOf c3 - 48)) with y
    by (Z.div_mod_to_equations; lia).
  replace ((byteOf m0 - 48) * 10 + (byteOf m1 - 48)) with m
    by (Z.div_mod_to_equations; lia).
  replace ((byteOf d0 - 48) * 10 + (byteOf d1 - 48)) with d
    by (Z.div_mod_to_equations; lia).
  replace ((d <? 1) || (time.daysIn m y <? d)) with false
    by (symmetry; rewrite orb_false_iff, !Z.ltb_ge; lia).
  reflexivity.
Qed.

Lemma ParseClock_bytes value clock :
  time.ParseClock value = Some clock ->
  exists short,
    validClock short (time.Hour clock) (time.Minute clock)
    /\ bytesOf value = clockBytes short (time.Hour clock) (time.Minute clock).
Proof.
  unfold time.ParseClock. intros H.
  destruct (time.getnum value false) as [[hour v1]|] eqn:E1; [|discriminate].
  cbn [mbind option_bind] in H.
  destruct ((hour <? 0) || (24 <=? hour)) eqn:Eh; [discriminate|].
  destruct (time.skip v1 58) as [v2|] eqn:E2; [|discriminate].
  apply skip_inv in E2 as (s1 & -> & Hs1). cbn [mbind option_bind] in H.
  destruct (time.getnum v2 true) as [[min v3]|] eqn:E3; [|discriminate].
  apply getnum_inv in E3
    as [(m0 & m1 & -> & Hm0 & Hm1 & ->)|[Hf _]]; [|discriminate].
  cbn [mbind option_bind] in H.
  destruct ((_ <? 0) || (60 <=? _)) eqn:Em; [discriminate|].
  destruct (negb (len v3 =? 0)) eqn:E5; [discriminate|].
  inversion H. subst. clear H. cbn [time.Hour time.Minute].
  assert (v3 = "") as ->.
  { destruct v3; [reflexivity|]. unfold len in E5. cbn in E5.
    apply negb_false_iff, Z.eqb_eq in E5. lia. }
  apply orb_false_elim in Eh as [Eh1 Eh2], Em as [Em1 Em2].
  rewrite ?Z.leb_gt, ?Z.ltb_ge in *. unfold isDigitByte, validClock in *.
  apply getnum_inv in E1
    as [(h0 & h1 & -> & Hh0 & Hh1 & ->)|(_ & h0 & -> & Hh0 & _ & ->)];
    unfold isDigitByte in *.
  - exists false. split; [split; [lia|split; [lia|discriminate]]|].
    cbn [bytesOf clockBytes app].
    repeat (apply (f_equal2 cons); [Z.div_mod_to_equations; lia|]). reflexivity.
  - exists true. split; [split; [lia|split; [lia|intros _; lia]]|].
    cbn [bytesOf clockBytes app].
    repeat (apply (f_equal2 cons); [Z.div_mod_to_equations; lia|]). reflexivity.
Qed.

Lemma ParseClock_clockBytes short h m :
  validClock short h m ->
  time.ParseClock (ofBytes (clockBytes short h m))
  = Some {| time.Year := 0; time.Month := 1; time.Day := 1;
            time.Hour := h; time.Minute := m |}.
Proof.
  intros (Hh & Hm & Hshort). unfold time.ParseClock.
  set (m0 := ofByte (48 + m / 10)). set (m1 := ofByte (48 + m mod 10)).
  assert (Hm0 : byteOf m0 = 48 + m / 10)
    by (apply byteOf_ofByte; Z.div_mod_to_equations; lia).
  assert (Hm1 : byteOf m1 = 48 + m mod 10)
    by (apply byteOf_ofByte; Z.div_mod_to_equations; lia).
  assert (Htail : forall hour,
    0 <= hour < 24 -> hour = h ->
    (if (hour <? 0) || (24 <=? hour) then None
     else
       value ← time.skip (String (ofByte 58) (String m0 (String m1 ""))) 58;
       '(min, value) ← time.getnum value true;
       if (min <? 0) || (60 <=? min) then None
       else if negb (len value =? 0) then None
       else Some {| time.Year := 0; time.Month := 1; time.Day := 1;
                    time.Hour := hour; time.Minute := min |})
    = Some {| time.Year := 0; time.Month := 1; time.Day := 1;
              time.Hour := h; time.Minute := m |}).
  { intros hour Hr ->.
    replace ((h <? 0) || (24 <=? h)) with false
      by (symmetry; rewrite orb_false_iff, Z.ltb_ge, Z.leb_gt; lia).
    cbn [time.skip]. change (byteOf (ofByte 58) =? 58) with true.
    cbn [mbind option_bind].
    rewrite getnum_cons2 by (unfold isDigitByte; Z.div_mod_to_equations; lia).
    cbn [mbind option_bind]. change (negb (len "" =? 0)) with false.
    replace ((byteOf m0 - 48) * 10 + (byteOf m1 - 48)) with m
      by (Z.div_mod_to_equations; lia).
    replace ((m <? 0) || (60 <=? m)) with false
      by (symmetry; rewrite orb_false_iff, Z.ltb_ge, Z.leb_gt; lia).
    reflexivity. }
  destruct short; cbn [clockBytes app ofBytes]; fold m0 m1.
  - specialize (Hshort eq_refl).
    assert (Hh0 : byteOf (ofByte (48 + h)) = 48 + h)
      by (apply byteOf_ofByte; lia).
    rewrite getnum_cons1.
    + cbn [mbind option_bind]. rewrite Hh0. apply Htail; lia.
    + unfold isDigitByte. lia.
    + rewrite isDigit_0_cons. reflexivity.
  - assert (Hh0 : byteOf (ofByte (48 + h / 10)) = 48 + h / 10)
      by (apply byteOf_ofByte; Z.div_mod_to_equations; lia).
    assert (Hh1 : byteOf (ofByte (48 + h mod 10)) = 48 + h mod 10)
      by (apply byteOf_ofByte; Z.div_mod_to_equations; lia).
    rewrite getnum_cons2
      by (unfold isDigitByte; Z.div_mod_to_equations; lia).
    cbn [mbind option_bind]. apply Htail; Z.div_mod_to_equations; lia.
Qed.

Section DateTimeErrors.
Context {P : Platform}.

(** X7.  For a receipt whose total parses, the tally ends with the
    message of the purchase date exactly when the date is not the ten
    bytes YYYY-MM-DD of a day of the calendar: four digits of year, a
    month from 01 to 12 and a day from 01 to the last day of that month
    in that year, each on two digits. *)
Theorem date_error_iff_not_a_calendar_day receipt :
  is_Some (strconv.ParseFloat (Total receipt)) ->
  (tally receipt = inl "Failed to parse receipt purchaseDate."
   <-> ~ exists y m d,
         validDate y m d /\ bytesOf (Date receipt) = dateBytes y m d).
Proof.
  intros [total Ht]. pose proof (tally_validate receipt) as Hv.
  unfold validate in Hv. rewrite Ht in Hv.
  destruct (time.ParseDate (Date receipt)) as [date|] eqn:Hd.
  - split.
    + intros Hmsg. exfalso.
      destruct (time.ParseClock (Time receipt));
        [destruct (List.find badPrice (Items receipt))|].
      * rewrite Hv in Hmsg. inversion Hmsg.
      * destruct Hv as [pts Hv]. rewrite Hv in Hmsg. discriminate.
      * rewrite Hv in Hmsg. discriminate.
    + intros Hno. exfalso. apply Hno.
      apply ParseDate_bytes in Hd as (Hy & Hm & Hday & Hb).
      exists (time.Year date), (time.Month date), (time.Day date).
      split; [split; [|split]|]; assumption.
  - split; [|intros _; exact Hv].
    intros _ (y & m & d & Hvalid & Hb).
    apply ParseDate_dateBytes in Hvalid.
    rewrite <- Hb, ofBytes_bytesOf, Hd in Hvalid. discriminate.
Qed.

(** X8.  For a receipt whose total and date parse, the tally ends with
    the message of the purchase time exactly when the time is not of the
    form HH:MM, or H:MM with an hour of one digit, with an hour below 24
    and a minute below 60 on two digits. *)
Theorem time_error_iff_not_a_clock_time receipt :
  is_Some (strconv.ParseFloat (Total receipt)) ->
  is_Some (time.ParseDate (Date receipt)) ->
  (tally receipt = inl "Failed to parse receipt purchaseTime."
   <-> ~ exists short h m,
         validClock short h m
         /\ bytesOf (Time receipt) = clockBytes short h m).
Proof.
  intros [total Ht] [date Hd]. pose proof (tally_validate receipt) as Hv.
  unfold validate in Hv. rewrite Ht, Hd in Hv.
  destruct (time.ParseClock (Time receipt)) as [clock|] eqn:Hc.
  - split.
    + intros Hmsg. exfalso.
      destruct (List.find badPrice (Items receipt)).
      * rewrite Hv in Hmsg. inversion Hmsg.
      * destruct Hv as [pts Hv]. rewrite Hv in Hmsg. discriminate.
    + intros Hno. exfalso. apply Hno.
      apply ParseClock_bytes in Hc as (short & Hvalid & Hb).
      exists short, (time.Hour clock), (time.Minute clock). auto.
  - split; [|intros _; exact Hv].
    intros _ (short & h & m & Hvalid & Hb).
    apply ParseClock_clockBytes in Hvalid.
    rewrite <- Hb, ofBytes_bytesOf, Hc in Hvalid. discriminate.
Qed.
End DateTimeErrors.

(** ** Blanks around a description *)

Lemma app_cons c s u : String c s +:+ u = String c (s +:+ u).
Proof. reflexivity. Qed.

Lemma length_append t u :
  String.length (t +:+ u) = (String.length t + String.length u)%nat.
Proof.
  induction t as [|c t IH]; [reflexivity|].
  rewrite app_cons. cbn [String.length]. rewrite IH. reflexivity.
Qed.

Lemma asciiSpace_ascii b :
  strings.asciiSpace b = true -> (utf8.RuneSelf <=? b) = false.
Proof.
  unfold strings.asciiSpace, utf8.RuneSelf.
  rewrite !orb_true_iff, !Z.eqb_eq, Z.leb_gt. lia.
Qed.

Lemma TrimSpace_leading pre t :
  allSpaces pre = true -> strings.TrimSpace (pre +:+ t) = strings.TrimSpace t.
Proof.
  induction pre as [|c pre IH]; intros H; [reflexivity|].
  cbn [allSpaces] in H. apply andb_prop in H as [Hc Hpre].
  rewrite app_cons. cbn [strings.TrimSpace].
  rewrite (asciiSpace_ascii _ Hc), Hc. apply IH, Hpre.
Qed.

Lemma TrimSpace_allSpaces s : allSpaces s = true -> strings.TrimSpace s = "".
Proof.
  induction s as [|c s IH]; intros H; [reflexivity|].
  cbn [allSpaces] in H. apply andb_prop in H as [Hc Hs].
  cbn [strings.TrimSpace]. rewrite (asciiSpace_ascii _ Hc), Hc. apply IH, Hs.
Qed.

Lemma get_at s n : at_ s (Z.of_nat n)
  = match String.get n s with Some c => byteOf c | None => 0 end.
Proof. unfold at_. rewrite Nat2Z.id. reflexivity. Qed.

Lemma at_app_l t u n :
  (n < String.length t)%nat ->
  at_ (t +:+ u) (Z.of_nat n) = at_ t (Z.of_nat n).
Proof.
  intros H. rewrite !get_at, <- append_correct1 by exact H. reflexivity.
Qed.

Lemma at_app_r t u n :
  at_ (t +:+ u) (Z.of_nat (String.length t + n)) = at_ u (Z.of_nat n).
Proof.
  rewrite !get_at, (Nat.add_comm (String.length t)), <- append_correct2.
  reflexivity.
Qed.

Lemma substring_app_l t u : forall k,
  (k <= String.length t)%nat ->
  String.substring 0 k (t +:+ u) = String.substring 0 k t.
Proof.
  induction t as [|c t IH]; intros k H.
  - cbn in H. assert (k = 0%nat) as -> by lia. destruct u; reflexivity.
  - rewrite app_cons. destruct k as [|k]; [reflexivity|].
    cbn [String.substring]. rewrite IH by (cbn in H; lia). reflexivity.
Qed.

Lemma slice_app_l t u k :
  (k <= String.length t)%nat ->
  slice (t +:+ u) 0 (Z.of_nat k) = slice t 0 (Z.of_nat k).
Proof.
  intros H. unfold slice. rewrite Z.sub_0_r, Nat2Z.id.
  change (Z.to_nat 0) with 0%nat. apply substring_app_l, H.
Qed.

Lemma trimStop_app_l t u : forall k,
  (k <= String.length t)%nat ->
  strings.trimStop (t +:+ u) k = strings.trimStop t k.
Proof.
  induction k as [|k IH]; intros H; [reflexivity|].
  cbn [strings.trimStop]. rewrite at_app_l, slice_app_l, IH by lia.
  reflexivity.
Qed.

Lemma allSpaces_at u : forall n,
  allSpaces u = true -> (n < String.length u)%nat ->
  strings.asciiSpace (at_ u (Z.of_nat n)) = true.
Proof.
  induction u as [|c u IH]; intros n H Hn; [cbn in Hn; lia|].
  cbn [allSpaces] in H. apply andb_prop in H as [Hc Hu].
  destruct n as [|n]; [exact Hc|].
  rewrite get_at. cbn [String.get]. rewrite <- get_at.
  apply IH; [exact Hu | cbn in Hn; lia].
Qed.

Lemma trimStop_app_spaces t u :
  allSpaces u = true ->
  forall j, (j <= String.length u)%nat ->
  strings.trimStop (t +:+ u) (String.length t + j)
  = strings.trimStop (t +:+ u) (String.length t).
Proof.
  intros Hu. induction j as [|j IH]; intros Hj.
  - rewrite Nat.add_0_r. reflexivity.
  - rewrite Nat.add_succ_r. cbn [strings.trimStop].
    rewrite at_app_r.
    pose proof (allSpaces_at u j Hu ltac:(lia)) as Hsp.
    rewrite (asciiSpace_ascii _ Hsp), Hsp. apply IH. lia.
Qed.

Lemma TrimSpace_trailing s post :
  isASCII s = true -> allSpaces post = true ->
  strings.TrimSpace (s +:+ post) = strings.TrimSpace s.
Proof.
  intros Hs Hpost. induction s as [|c s IH].
  - cbn. apply TrimSpace_allSpaces, Hpost.
  - cbn [isASCII] in Hs. apply andb_prop in Hs as [Hc Hs].
    rewrite app_cons. cbn [strings.TrimSpace].
    replace (utf8.RuneSelf <=? byteOf c) with false
      by (symmetry; apply Z.leb_gt, Z.ltb_lt, Hc).
    destruct (strings.asciiSpace (byteOf c)); [apply IH, Hs|].
    rewrite <- app_cons, length_append.
    rewrite trimStop_app_spaces by (try exact Hpost; lia).
    apply trimStop_app_l. lia.
Qed.

Section Padding.
Context {P : Platform}.

Lemma itemLoop_padded pre post item items2 :
  isASCII (Description item) = true ->
  allSpaces pre = true -> allSpaces post = true ->
  forall items1 acc pts,
    itemLoop (items1 ++ padded pre post item :: items2) acc = inr pts
    <-> itemLoop (items1 ++ item :: items2) acc = inr pts.
Proof.
  intros Hs Hpre Hpost.
  assert (H : strings.TrimSpace (Description (padded pre post item))
              = strings.TrimSpace (Description item)).
  { unfold padded. cbn [Description].
    rewrite TrimSpace_leading by exact Hpre.
    apply TrimSpace_trailing; assumption. }
  induction items1 as [|i items1 IH]; intros acc pts.
  - cbn [app itemLoop]. rewrite H.
    change (Price (padded pre post item)) with (Price item).
    destruct (Z.rem _ 3 =? 0); [|reflexivity].
    destruct (strconv.ParseFloat (Price item)); [reflexivity|].
    split; discriminate.
  - cbn [app itemLoop].
    destruct (Z.rem _ 3 =? 0); [|apply IH].
    destruct (strconv.ParseFloat (Price i)); [apply IH | reflexivity].
Qed.

(** X9.  Putting blanks of ASCII (space, tab, line feed, vertical tab,
    form feed, carriage return) before and after the description of an
    item, the description being of ASCII bytes, changes neither whether
    the receipt is scored nor its points. *)
Theorem blanks_around_a_description_do_not_change_the_score
    receipt items1 item items2 pre post pts :
  Items receipt = items1 ++ item :: items2 ->
  isASCII (Description item) = true ->
  allSpaces pre = true -> allSpaces post = true ->
  (tally (withItems receipt (items1 ++ padded pre post item :: items2))
   = inr pts
   <-> tally receipt = inr pts).
Proof.
  intros Hitems Hs Hpre Hpost. unfold tally, withItems.
  cbn [Retailer Date Time Items Total]. rewrite Hitems.
  destruct (strconv.ParseFloat (Total receipt)); [|reflexivity].
  destruct (time.ParseDate (Date receipt)); [|reflexivity].
  destruct (time.ParseClock (Time receipt)); [|reflexivity].
  cbv zeta. rewrite !length_app. cbn [length].
  match goal with
  | |- context [itemLoop (items1 ++ item :: items2) ?acc] =>
    pose proof (itemLoop_padded pre post item items2 Hs Hpre Hpost items1 acc)
      as Hloop
  end.
  destruct (itemLoop (items1 ++ padded pre post item :: items2) _)
    as [m1|p1] eqn:E1;
    destruct (itemLoop (items1 ++ item :: items2) _) as [m2|p2] eqn:E2.
  - split; discriminate.
  - exfalso. destruct (Hloop p2) as [_ Hback].
    specialize (Hback eq_refl). discriminate.
  - exfalso. destruct (Hloop p1) as [Hfwd _].
    specialize (Hfwd eq_refl). discriminate.
  - destruct (Hloop p1) as [Hfwd _]. specialize (Hfwd eq_refl).
    inversion Hfwd. subst. reflexivity.
Qed.
End Padding.

(** ** The sign of price points *)

Lemma binary_round_aux_sign sx mx ex lx :
  let r := binary_round_aux math.prec math.emax sx mx ex lx in
  if sx then notPositive r else notNegative r.
Proof.
  unfold binary_round_aux.
  destruct (shr_fexp _ _ mx ex lx) as [mrs' e'].
  destruct (shr_fexp _ _ _ e' loc_Exact) as [mrs'' e''].
  destruct (shr_m mrs''); [| |destruct sx; exact I].
  - destruct sx; exact I.
  - destruct (e'' <=? _), sx; exact I.
Qed.

Lemma binary_round_sign sx mx ex :
  let r := binary_round math.prec math.emax sx mx ex in
  if sx then notPositive r else notNegative r.
Proof.
  unfold binary_round. destruct (shl_align _ _ _) as [mz ez].
  apply binary_round_aux_sign.
Qed.

Lemma SFopp_notPositive x : notPositive x -> notNegative (SFopp x).
Proof. destruct x as [[]|[]| |[] ? ?]; cbn; auto. Qed.

Lemma SFopp_notNegative x : notNegative x -> notPositive (SFopp x).
Proof. destruct x as [[]|[]| |[] ? ?]; cbn; auto. Qed.

Lemma Floor_notPositive x : notPositive x -> notPositive (math.Floor x).
Proof.
  destruct x as [s|s| |s m e]; try (intros H; exact H).
  destruct s; [intros _|intros []].
  unfold math.Floor. destruct (0 <=? e); [exact I|].
  unfold math.ofScaled, binary_normalize, cond_Zopp.
  pose proof (proj2 (Z.shiftr_neg (Z.neg m) (- e)) ltac:(lia)) as Hneg.
  change (- Z.pos m) with (Z.neg m).
  destruct (Z.shiftr (Z.neg m) (- e)) as [|n|n]; try lia.
  apply (binary_round_sign true).
Qed.

Lemma Ceil_notNegative x : notNegative x -> notNegative (math.Ceil x).
Proof.
  intros H. unfold math.Ceil.
  apply SFopp_notPositive, Floor_notPositive, SFopp_notNegative, H.
Qed.

Lemma mul_fifth_notNegative x :
  notNegative x -> notNegative (math.mul x math.fifth).
Proof.
  destruct x as [s|s| |s m e]; cbn; try (destruct s; auto; fail); auto.
  destruct s; [intros []|intros _].
  apply (binary_round_aux_sign false).
Qed.

Lemma truncate_notNegative x v :
  notNegative x -> math.truncate x = Some v -> 0 <= v.
Proof.
  destruct x as [s|s| |s m e]; cbn; try discriminate.
  - intros _ H. inversion H. lia.
  - destruct s; [intros []|intros _].
    intros H. inversion H. subst. cbn [cond_Zopp].
    destruct (0 <=? e).
    + apply Z.shiftl_nonneg. lia.
    + apply Z.shiftr_nonneg. lia.
Qed.

Section PriceSign.
Context {P : Platform}.

(** X10.  The points of an item whose price parses to a float that is
    not below zero are [ceil(price * 0.2)] taken as an integer: they are
    not negative as long as that integer is below [2^63]; from there on,
    and for an infinite price or one that is not a number, they are what
    the platform makes of a conversion out of range. *)
Theorem price_not_below_zero_never_lowers_the_score item price :
  strconv.ParseFloat (Price item) = Some price ->
  notNegative price ->
  match math.truncate (math.Ceil (math.mul price math.fifth)) with
  | Some v =>
    0 <= v
    /\ (v < 2 ^ 63 -> pricePoints item = v)
    /\ (2 ^ 63 <= v ->
        pricePoints item
        = wrap64 (intOutOfRange (math.Ceil (math.mul price math.fifth))))
  | None =>
    pricePoints item
    = wrap64 (intOutOfRange (math.Ceil (math.mul price math.fifth)))
  end.
Proof.
  intros Hp Hn. unfold pricePoints, math.toInt. rewrite Hp.
  pose proof (fun v =>
                truncate_notNegative _ v
                  (Ceil_notNegative _ (mul_fifth_notNegative _ Hn))) as Hv.
  destruct (math.truncate _) as [v|]; [|reflexivity].
  specialize (Hv v eq_refl). split; [exact Hv|]. split; intros Hb.
  - replace ((- 2 ^ 63 <=? v) && (v <? 2 ^ 63)) with true; [reflexivity|].
    symmetry. rewrite andb_true_iff, Z.leb_le, Z.ltb_lt. lia.
  - replace ((- 2 ^ 63 <=? v) && (v <? 2 ^ 63)) with false; [reflexivity|].
    symmetry. rewrite andb_false_iff, Z.ltb_ge. right. lia.
Qed.
End PriceSign.

(** ** The tally as a whole *)

Section ItemOrder.
Context {P : Platform}.

(** The converse of [tally_inr]. *)
Lemma tally_inr_intro receipt total date clock :
  strconv.ParseFloat (Total receipt) = Some total ->
  time.ParseDate (Date receipt) = Some date ->
  time.ParseClock (Time receipt) = Some clock ->
  List.find badPrice (Items receipt) = None ->
  tally receipt
  = inr (wrap64 (retailerPoints (Retailer receipt)
                 + roundDollarBonus total + quarterBonus total
                 + itemPairBonus (Items receipt)
                 + descriptionBonus byteLengthQualifies (Items receipt)
                 + oddDayBonus date
                 + afternoonBonus clock)).
Proof.
  intros Ht Hd Hc Hfind.
  pose proof (tally_validate receipt) as Hv. unfold validate in Hv.
  rewrite Ht, Hd, Hc, Hfind in Hv. destruct Hv as [pts Hv].
  rewrite Hv. f_equal.
  apply tally_inr in Hv as (total' & date' & clock' & Ht' & Hd' & Hc' & _ & ->).
  assert (total' = total) by congruence.
  assert (date' = date) by congruence.
  assert (clock' = clock) by congruence.
  subst. reflexivity.
Qed.

Lemma descriptionBonus_Permutation qualifies items items' :
  Permutation items items' ->
  descriptionBonus qualifies items = descriptionBonus qualifies items'.
Proof.
  induction 1 as [|x l l' _ IH|x y l|l l' l'' _ IH1 _ IH2]; cbn.
  - reflexivity.
  - fold (descriptionBonus qualifies l). fold (descriptionBonus qualifies l').
    rewrite IH. reflexivity.
  - lia.
  - congruence.
Qed.

Lemma find_badPrice_Permutation items items' :
  Permutation items items' ->
  List.find badPrice items = None -> List.find badPrice items' = None.
Proof.
  intros Hp Hnone.
  destruct (List.find badPrice items') as [item|] eqn:E; [|reflexivity].
  apply find_some in E as [Hin Hbad].
  apply (Permutation_in _ (Permutation_sym Hp)) in Hin.
  rewrite (find_none _ _ Hnone _ Hin) in Hbad. discriminate.
Qed.

Lemma tally_Permutation receipt items pts :
  Permutation (Items receipt) items ->
  tally receipt = inr pts -> tally (withItems receipt items) = inr pts.
Proof.
  intros Hp H.
  apply tally_inr in H as (total & date & clock & Ht & Hd & Hc & Hfind & ->).
  rewrite (tally_inr_intro (withItems receipt items) total date clock);
    try assumption.
  - cbn [withItems Retailer Items]. unfold itemPairBonus.
    rewrite (Permutation_length Hp),
      (descriptionBonus_Permutation _ _ _ Hp).
    reflexivity.
  - cbn [withItems Items]. apply (find_badPrice_Permutation _ _ Hp), Hfind.
Qed.

(** X11.  A receipt is scored exactly when its total, its date and its
    time parse and the price parses of every item whose trimmed
    description has a length in bytes divisible by 3; its points are
    then the sum of the seven rules, wrapped to 64 bits. *)
Theorem tally_succeeds_iff_fields_parse receipt pts :
  tally receipt = inr pts <->
  exists total date clock,
    strconv.ParseFloat (Total receipt) = Some total
    /\ time.ParseDate (Date receipt) = Some date
    /\ time.ParseClock (Time receipt) = Some clock
    /\ (forall item, In item (Items receipt) ->
          Z.rem (len (strings.TrimSpace (Description item))) 3 = 0 ->
          is_Some (strconv.ParseFloat (Price item)))
    /\ pts = wrap64
               (Z.of_nat (length (List.filter isAlphanumeric
                                    (utf8.range (Retailer receipt))))
                + roundDollarBonus total + quarterBonus total
                + itemPairBonus (Items receipt)
                + descriptionBonus byteLengthQualifies (Items receipt)
                + (if Z.odd (time.Day date) then 6 else 0)
                + afternoonBonus clock).
Proof.
  split.
  - intros H.
    apply tally_inr in H as (total & date & clock & Ht & Hd & Hc & Hfind & ->).
    exists total, date, clock. do 3 (split; [assumption|]).
    split; [|reflexivity].
    intros item Hin Hq. apply (find_none _ _ Hfind) in Hin.
    unfold badPrice in Hin. rewrite <- byteLengthQualifies_rem in Hin.
    rewrite Hq in Hin. cbn in Hin.
    destruct (strconv.ParseFloat (Price item)); [eauto | discriminate].
  - intros (total & date & clock & Ht & Hd & Hc & Hall & ->).
    pose proof (tally_validate receipt) as Hv. unfold validate in Hv.
    rewrite Ht, Hd, Hc, find_badPrice_none in Hv.
    + destruct Hv as [pts' Hv]. rewrite Hv. f_equal.
      apply tally_inr in Hv
        as (total' & date' & clock' & Ht' & Hd' & Hc' & _ & ->).
      assert (total' = total) by congruence.
      assert (date' = date) by congruence.
      assert (clock' = clock) by congruence.
      subst. reflexivity.
    + intros item Hin Hq. apply Hall; [exact Hin|].
      rewrite <- byteLengthQualifies_rem in Hq. apply Z.eqb_eq, Hq.
Qed.

(** X12.  The order of the items of a receipt changes neither whether
    the receipt is scored nor its points. *)
Theorem item_order_does_not_change_the_score receipt items pts :
  Permutation (Items receipt) items ->
  (tally (withItems receipt items) = inr pts <-> tally receipt = inr pts).
Proof.
  intros Hp. split; [|apply tally_Permutation, Hp].
  intros H.
  apply (tally_Permutation (withItems receipt items) (Items receipt))
    in H; [|apply Permutation_sym, Hp].
  destruct receipt. exact H.
Qed.
End ItemOrder.

(** * Instances on the examples *)

(** C3, as stated, fails.  The description of the only item of
    [multibyteReceipt] has two characters and three bytes.  The receipt is
    scored with 1 point, the price points of that item, whereas the sum
    of the rules with the description rule applied to the number of
    characters is 0. *)
Lemma multibyte_description_is_scored_on_bytes :
  exists item total date clock,
    Items multibyteReceipt = [item]
    /\ utf8.RuneCountInString (strings.TrimSpace (Description item)) = 2
    /\ len (strings.TrimSpace (Description item)) = 3
    /\ strconv.ParseFloat (Total multibyteReceipt) = Some total
    /\ time.ParseDate (Date multibyteReceipt) = Some date
    /\ time.ParseClock (Time multibyteReceipt) = Some clock
    /\ tally (P := examplePlatform) multibyteReceipt = inr 1
    /\ wrap64 (retailerPoints (P := examplePlatform) (Retailer multibyteReceipt)
               + roundDollarBonus total + quarterBonus total
               + itemPairBonus (Items multibyteReceipt)
               + descriptionBonus (P := examplePlatform) charLengthQualifies
                                  (Items multibyteReceipt)
               + oddDayBonus date + afternoonBonus clock) = 0.
Proof.
  do 4 eexists. split; [reflexivity|].
  repeat split; vm_compute; reflexivity.
Qed.

(** The tallies of the example receipts on [examplePlatform]. *)
Lemma example_tallies :
  tally (P := examplePlatform) targetReceipt = inr 28
  /\ tally (P := examplePlatform) afternoonReceipt = inr 38
  /\ tally (P := examplePlatform) roundTotalReceipt = inr 103
  /\ tally (P := examplePlatform) multibyteReceipt = inr 1
  /\ tally (P := examplePlatform) lazyReceipt = inr 6.
Proof. repeat split; vm_compute; reflexivity. Qed.

(** C2 at [afternoonReceipt], bought at 14:01: 38 points, ten more than
    the same purchase at 13:01. *)
Lemma afternoon_bonus_at_14_01 :
  tally (P := examplePlatform) afternoonReceipt = inr 38
  /\ exists clock,
       time.ParseClock (Time afternoonReceipt) = Some clock
       /\ time.Hour clock = 14 /\ time.Minute clock = 1
       /\ afternoonBonus clock = 10.
Proof.
  assert (H : tally (P := examplePlatform) afternoonReceipt = inr 38)
    by (vm_compute; reflexivity).
  split; [exact H|].
  destruct (afternoon_bonus_strictly_between_14_and_16
              (P := examplePlatform) afternoonReceipt 38 H)
    as (total & date & clock & _ & _ & Hc & _).
  exists clock. split; [exact Hc|].
  vm_compute in Hc. inversion Hc. repeat split.
Defined.

(** The amended C3 at [multibyteReceipt]: the item of three bytes earns
    the single point of the receipt. *)
Lemma description_bonus_at_multibyteReceipt :
  tally (P := examplePlatform) multibyteReceipt = inr 1
  /\ fold_right
       (fun item acc =>
          (if len (strings.TrimSpace (Description item)) mod 3 =? 0
           then pricePoints (P := examplePlatform) item else 0) + acc)
       0 (Items multibyteReceipt) = 1.
Proof.
  assert (H : tally (P := examplePlatform) multibyteReceipt = inr 1)
    by (vm_compute; reflexivity).
  split; [exact H|].
  destruct (description_bonus_counts_trimmed_bytes
              (P := examplePlatform) multibyteReceipt 1 H)
    as (total & date & clock & _ & _ & _ & _ & Hitems & _).
  destruct (Hitems _ (or_introl eq_refl) eq_refl) as (price & Hp & Hpts).
  vm_compute. reflexivity.
Defined.

(** C4 at [malformedReceipt], whose total is written with a comma. *)
Lemma malformed_total_aborts :
  strconv.ParseFloat (Total malformedReceipt) = None
  /\ scanReceipt (P := examplePlatform) malformedReceipt exampleWorld
     = (IndentedJSON StatusBadRequest "message"
          (JString "Failed to parse receipt total to float."), exampleWorld).
Proof.
  assert (H : strconv.ParseFloat (Total malformedReceipt) = None)
    by (vm_compute; reflexivity).
  split; [exact H|].
  destruct (malformed_field_aborts_and_records_nothing
              (P := examplePlatform) malformedReceipt exampleWorld
              (or_introl H))
    as (e & He & Hscan).
  vm_compute in He. inversion He. subst e. exact Hscan.
Defined.

(** C5 at [lazyReceipt]: the price [free] of the item that does not
    qualify is never parsed, and the receipt is scored. *)
Lemma lazy_price_check_at_lazyReceipt :
  strconv.ParseFloat "free" = None
  /\ exists pts, tally (P := examplePlatform) lazyReceipt = inr pts.
Proof.
  split; [vm_compute; reflexivity|].
  destruct (validation_is_ordered_and_prices_are_checked_lazily
              (P := examplePlatform) lazyReceipt)
    as (_ & _ & _ & _ & Hall & _).
  apply Hall.
  - vm_compute. eexists. reflexivity.
  - vm_compute. eexists. reflexivity.
  - vm_compute. eexists. reflexivity.
  - intros i [<-|[<-|[]]] Hq; vm_compute in Hq; try discriminate.
    vm_compute. eexists. reflexivity.
Defined.

(** C6 at [roundTotalReceipt]: 103 points, 75 more than the same purchase
    with the total 35.35. *)
Lemma round_total_at_roundTotalReceipt :
  tally (P := examplePlatform) roundTotalReceipt = inr 103
  /\ tally (P := examplePlatform) targetReceipt = inr 28
  /\ exists date clock,
       time.ParseDate (Date roundTotalReceipt) = Some date
       /\ time.ParseClock (Time roundTotalReceipt) = Some clock
       /\ 103 = wrap64 (retailerPoints (P := examplePlatform)
                          (Retailer roundTotalReceipt)
                        + 50 + 25
                        + itemPairBonus (Items roundTotalReceipt)
                        + descriptionBonus (P := examplePlatform)
                            byteLengthQualifies (Items roundTotalReceipt)
                        + oddDayBonus date + afternoonBonus clock).
Proof.
  assert (H : tally (P := examplePlatform) roundTotalReceipt = inr 103)
    by (vm_compute; reflexivity).
  split; [exact H|]. split; [vm_compute; reflexivity|].
  destruct (total_100_00_earns_75_and_10_10_nothing
              (P := examplePlatform) roundTotalReceipt 103 H)
    as (date & clock & Hd & Hc & H100 & _).
  exists date, clock. repeat split; [exact Hd | exact Hc | exact (H100 eq_refl)].
Defined.

(** C7 at [targetReceipt]: its five items contribute 10 points. *)
Lemma item_pair_bonus_at_targetReceipt :
  tally (P := examplePlatform) targetReceipt = inr 28
  /\ 5 * (Z.of_nat (length (Items targetReceipt)) / 2) = 10
  /\ exists total date clock,
       28 = wrap64 (retailerPoints (P := examplePlatform)
                      (Retailer targetReceipt)
                    + roundDollarBonus total + quarterBonus total
                    + 5 * (Z.of_nat (length (Items targetReceipt)) / 2)
                    + descriptionBonus (P := examplePlatform)
                        byteLengthQualifies (Items targetReceipt)
                    + oddDayBonus date + afternoonBonus clock).
Proof.
  assert (H : tally (P := examplePlatform) targetReceipt = inr 28)
    by (vm_compute; reflexivity).
  split; [exact H|]. split; [reflexivity|].
  destruct (item_pair_bonus_is_5_per_two_items
              (P := examplePlatform) targetReceipt 28 H)
    as (total & date & clock & _ & _ & _ & Hpts & _).
  exists total, date, clock. exact Hpts.
Defined.

(** The source of [exampleWorld] never repeats an identifier. *)
Lemma exampleWorld_neverRepeats : neverRepeats (uuids exampleWorld).
Proof.
  intros j k H. cbn in H. injection H as H. exact (pretty_nat_inj j k H).
Qed.

(** X2 on the world left by scoring [targetReceipt]: its identifier
    still has points after two more requests. *)
Lemma issued_identifier_kept_at_exampleWorld :
  let w := snd (route (P := examplePlatform)
                  (PostProcess (Some targetReceipt)) exampleWorld) in
  let reqs := [PostProcess (Some afternoonReceipt); GetPoints "id-7"] in
  is_Some (receiptPoints w !! "id-0")
  /\ is_Some (receiptPoints (snd (serve (P := examplePlatform) reqs w))
                !! "id-0").
Proof.
  intros w reqs.
  assert (H : is_Some (receiptPoints w !! "id-0")).
  { exists 28. vm_compute. reflexivity. }
  split; [exact H|].
  apply (issued_identifier_is_never_lost (P := examplePlatform) reqs w "id-0" H).
Defined.

(** X3 on [exampleWorld]: [targetReceipt], sent after one request and
    before two, is answered with ["id-1"], under which 28 points are
    found at the end. *)
Lemma score_retrievable_at_exampleWorld :
  let before := [PostProcess (Some afternoonReceipt)] in
  let after := [PostProcess None; PostProcess (Some roundTotalReceipt)] in
  let run := serve (P := examplePlatform)
               (before ++ PostProcess (Some targetReceipt) :: after)
               exampleWorld in
  neverRepeats (uuids exampleWorld)
  /\ tally (P := examplePlatform) targetReceipt = inr 28
  /\ nth_error (fst run) 1
     = Some (IndentedJSON StatusCreated "id" (JString "id-1"))
  /\ fst (getPoints "id-1" (snd run)) = IndentedJSON StatusOK "points" (JInt 28).
Proof.
  intros before after run.
  assert (Ht : tally (P := examplePlatform) targetReceipt = inr 28)
    by (vm_compute; reflexivity).
  split; [exact exampleWorld_neverRepeats|]. split; [exact Ht|].
  exact (score_is_retrievable_ever_after (P := examplePlatform)
           (uuids exampleWorld) before targetReceipt after 28
           exampleWorld_neverRepeats Ht).
Defined.

(** X7 at [impossibleDateReceipt]: its total parses, the tally ends with
    the message of the date, and no day of the calendar is written
    2022-02-30. *)
Lemma date_error_at_impossibleDateReceipt :
  is_Some (strconv.ParseFloat (Total impossibleDateReceipt))
  /\ tally (P := examplePlatform) impossibleDateReceipt
     = inl "Failed to parse receipt purchaseDate."
  /\ ~ exists y m d,
         validDate y m d
         /\ bytesOf (Date impossibleDateReceipt) = dateBytes y m d.
Proof.
  assert (Ht : is_Some (strconv.ParseFloat (Total impossibleDateReceipt))).
  { vm_compute. eexists. reflexivity. }
  assert (Hm : tally (P := examplePlatform) impossibleDateReceipt
               = inl "Failed to parse receipt purchaseDate.")
    by (vm_compute; reflexivity).
  split; [exact Ht|]. split; [exact Hm|].
  apply (date_error_iff_not_a_calendar_day (P := examplePlatform)
           impossibleDateReceipt Ht), Hm.
Defined.

(** X8 at [impossibleTimeReceipt]: its total and date parse, the tally
    ends with the message of the time, and no time of the day is written
    24:00. *)
Lemma time_error_at_impossibleTimeReceipt :
  is_Some (strconv.ParseFloat (Total impossibleTimeReceipt))
  /\ is_Some (time.ParseDate (Date impossibleTimeReceipt))
  /\ tally (P := examplePlatform) impossibleTimeReceipt
     = inl "Failed to parse receipt purchaseTime."
  /\ ~ exists short h m,
         validClock short h m
         /\ bytesOf (Time impossibleTimeReceipt) = clockBytes short h m.
Proof.
  assert (Ht : is_Some (strconv.ParseFloat (Total impossibleTimeReceipt))).
  { vm_compute. eexists. reflexivity. }
  assert (Hd : is_Some (time.ParseDate (Date impossibleTimeReceipt))).
  { vm_compute. eexists. reflexivity. }
  assert (Hm : tally (P := examplePlatform) impossibleTimeReceipt
               = inl "Failed to parse receipt purchaseTime.")
    by (vm_compute; reflexivity).
  split; [exact Ht|]. split; [exact Hd|]. split; [exact Hm|].
  apply (time_error_iff_not_a_clock_time (P := examplePlatform)
           impossibleTimeReceipt Ht Hd), Hm.
Defined.

(** X9 at [targetReceipt]: two spaces before and a tab after the
    description of its first item leave the 28 points. *)
Lemma blanks_at_targetReceipt :
  let item := {| Description := "Mountain Dew 12PK"; Price := "6.49" |} in
  let rest := tl (Items targetReceipt) in
  let tab := String (ofByte 9) "" in
  Items targetReceipt = [] ++ item :: rest
  /\ isASCII (Description item) = true
  /\ allSpaces "  " = true /\ allSpaces tab = true
  /\ Description (padded "  " tab item)
     = "  Mountain Dew 12PK" +:+ tab
  /\ tally (P := examplePlatform)
       (withItems targetReceipt ([] ++ padded "  " tab item :: rest))
     = inr 28.
Proof.
  intros item rest tab.
  assert (Hi : Items targetReceipt = [] ++ item :: rest) by reflexivity.
  assert (Ha : isASCII (Description item) = true) by reflexivity.
  assert (Hpre : allSpaces "  " = true) by reflexivity.
  assert (Hpost : allSpaces tab = true) by reflexivity.
  repeat (split; [assumption || reflexivity|]).
  apply (blanks_around_a_description_do_not_change_the_score
           (P := examplePlatform) targetReceipt [] item rest "  " tab 28
           Hi Ha Hpre Hpost).
  vm_compute. reflexivity.
Defined.

(** X10 at an item priced 5.00, which is [5 * 2^50 * 2^-50]: one point. *)
Lemma price_points_at_5_00 :
  let item := {| Description := "abc"; Price := "5.00" |} in
  let price := S754_finite false 5629499534213120 (-50) in
  strconv.ParseFloat (Price item) = Some price
  /\ notNegative price
  /\ math.truncate (math.Ceil (math.mul price math.fifth)) = Some 1
  /\ pricePoints (P := examplePlatform) item = 1.
Proof.
  intros item price.
  assert (Hp : strconv.ParseFloat (Price item) = Some price)
    by (vm_compute; reflexivity).
  assert (Hn : notNegative price) by exact I.
  split; [exact Hp|]. split; [exact Hn|].
  assert (Hv : math.truncate (math.Ceil (math.mul price math.fifth)) = Some 1)
    by (vm_compute; reflexivity).
  split; [exact Hv|].
  pose proof (price_not_below_zero_never_lowers_the_score
                (P := examplePlatform) item price Hp Hn) as H.
  rewrite Hv in H. destruct H as (_ & H & _). apply H. reflexivity.
Defined.

(** X12 at [targetReceipt]: with its items in reverse order it has the
    same 28 points. *)
Lemma item_order_at_targetReceipt :
  Permutation (Items targetReceipt) (rev (Items targetReceipt))
  /\ tally (P := examplePlatform)
       (withItems targetReceipt (rev (Items targetReceipt)))
     = inr 28.
Proof.
  assert (Hp : Permutation (Items targetReceipt) (rev (Items targetReceipt)))
    by apply Permutation_rev.
  split; [exact Hp|].
  apply (item_order_does_not_change_the_score (P := examplePlatform)
           targetReceipt (rev (Items targetReceipt)) 28 Hp).
  vm_compute. reflexivity.
Defined.

(** C4, as stated, fails.  The only item of
    [unpricedThreeCharacterReceipt] has a description of three
    characters, which qualifies by its character length, and a price that
    does not parse.  Its description has four bytes, the loop does not
    parse its price, and [scanReceipt] answers 201, draws the identifier
    and stores 0 points under it. *)
Lemma character_qualifying_bad_price_is_recorded :
  exists item,
    In item (Items unpricedThreeCharacterReceipt)
    /\ utf8.RuneCountInString (strings.TrimSpace (Description item)) = 3
    /\ charLengthQualifies item = true
    /\ len (strings.TrimSpace (Description item)) = 4
    /\ byteLengthQualifies item = false
    /\ strconv.ParseFloat (Price item) = None
    /\ fst (scanReceipt (P := examplePlatform)
              unpricedThreeCharacterReceipt exampleWorld)
       = IndentedJSON StatusCreated "id" (JString "id-0")
    /\ drawn exampleWorld = 0%nat
    /\ drawn (snd (scanReceipt (P := examplePlatform)
                     unpricedThreeCharacterReceipt exampleWorld)) = 1%nat
    /\ receiptPoints exampleWorld !! "id-0" = None
    /\ receiptPoints (snd (scanReceipt (P := examplePlatform)
                             unpricedThreeCharacterReceipt exampleWorld))
         !! "id-0" = Some 0.
Proof.
  eexists. split; [left; reflexivity|].
  repeat split; vm_compute; reflexivity.
Qed.

(** C5, as stated, fails on both halves of the lazy check.  The item of
    [unpricedTwoCharacterReceipt] has two characters, so it does not
    qualify by its character length, yet its malformed price ends the
    tally with the message of the item price, its description having
    three bytes.  The item of [unpricedThreeCharacterReceipt] has three
    characters, so it qualifies by its character length, yet its
    malformed price is no error and the receipt is scored, its
    description having four bytes. *)
Lemma price_check_goes_by_bytes_not_characters :
  (exists item,
     Items unpricedTwoCharacterReceipt = [item]
     /\ utf8.RuneCountInString (strings.TrimSpace (Description item)) = 2
     /\ charLengthQualifies item = false
     /\ byteLengthQualifies item = true
     /\ strconv.ParseFloat (Price item) = None
     /\ validate unpricedTwoCharacterReceipt
        = Some (InvalidItemPrice (Description item))
     /\ tally (P := examplePlatform) unpricedTwoCharacterReceipt
        = inl ("Failed to parse price to float for item: "
               +:+ Description item))
  /\ (exists item,
        Items unpricedThreeCharacterReceipt = [item]
        /\ utf8.RuneCountInString (strings.TrimSpace (Description item)) = 3
        /\ charLengthQualifies item = true
        /\ byteLengthQualifies item = false
        /\ strconv.ParseFloat (Price item) = None
        /\ validate unpricedThreeCharacterReceipt = None
        /\ tally (P := examplePlatform) unpricedThreeCharacterReceipt = inr 0).
Proof.
  split; (eexists; split; [reflexivity|]);
    repeat split; vm_compute; reflexivity.
Qed.
